(** * The REST catalog client of pyiceberg ([pyiceberg/catalog/rest.py])

    A shallow embedding of the client: identifiers and their encodings,
    the mapping of HTTP failures onto exception classes, token handling,
    the tenacity retry wrapper and the table operations, followed by the
    properties of the design document that they satisfy or break.

    Python values are modelled as follows.
    - [str] is [string]; [str.join], [str.split] and [in] are written out.
    - [Dict[str, str]] ([Properties], HTTP headers) is [gmap string string];
      the headers of a session, a dictionary that ignores the case of its
      keys, are written through [CaseInsensitiveDict]; the error-handler
      dictionaries [Dict[int, Type[Exception]]] are
      [gmap Z ErrorKind].
    - An exception is its class ([ErrorKind]) and its message.
    - A method of [RestCatalog] is a function on a [World]: the catalog
      object, the [Session] objects it has allocated, and the requests sent
      so far.  It returns the raised exception or the result, and the world
      it leaves behind. *)

From Stdlib Require Import ZArith Ascii String List Lia.
From stdpp Require Import base option list strings gmap fin_maps pretty.

Local Open Scope string_scope.
Local Open Scope Z_scope.

(** ** Strings *)

Module PyStr.

(** [sep.join(parts)] *)
Definition join (sep : string) (parts : list string) : string :=
  String.concat sep parts.

(** [s.split(sep)] for a separator of one character. *)
Fixpoint split (sep : ascii) (s : string) : list string :=
  match s with
  | EmptyString => [EmptyString]
  | String c rest =>
      if Ascii.eqb c sep then EmptyString :: split sep rest
      else match split sep rest with
           | [] => [String c EmptyString]
           | piece :: pieces => String c piece :: pieces
           end
  end.

(** [c in s] for a single character [c]. *)
Fixpoint contains (c : ascii) (s : string) : bool :=
  match s with
  | EmptyString => false
  | String c' rest => Ascii.eqb c' c || contains c rest
  end.

(** [s.endswith("/")] *)
Fixpoint endswith_slash (s : string) : bool :=
  match s with
  | EmptyString => false
  | String c EmptyString => Ascii.eqb c "/"
  | String _ rest => endswith_slash rest
  end.

(** [s.startswith(prefix)] and [s[len(prefix):]] in one pass. *)
Fixpoint strip_prefix (prefix s : string) : option string :=
  match prefix, s with
  | EmptyString, _ => Some s
  | String p prefix', String c s' =>
      if Ascii.eqb p c then strip_prefix prefix' s' else None
  | String _ _, EmptyString => None
  end.

(** Truthiness of a string: [bool(s)]. *)
Definition truthy (s : string) : bool :=
  match s with EmptyString => false | String _ _ => true end.

(** [c.lower()] for a character: the ASCII capitals become small letters.
    The names of HTTP headers, the only strings lowered here, are ASCII. *)
Definition lower_char (c : ascii) : ascii :=
  let code := nat_of_ascii c in
  if (65 <=? code)%nat && (code <=? 90)%nat then ascii_of_nat (code + 32) else c.

(** [s.lower()] *)
Fixpoint lower (s : string) : string :=
  match s with
  | EmptyString => EmptyString
  | String c rest => String (lower_char c) (lower rest)
  end.

(** [t is a substring of s], used to say that a message embeds a text. *)
Definition embeds (s t : string) : Prop :=
  exists before after, s = before +:+ t +:+ after.

End PyStr.

(** ** Constants of the module *)

Definition TOKEN := "token".
Definition URI := "uri".
Definition WAREHOUSE_LOCATION := "warehouse".

Definition ICEBERG_REST_SPEC_VERSION := "0.14.1".
Definition AUTHORIZATION_HEADER := "Authorization".
Definition BEARER_PREFIX := "Bearer".
Definition CATALOG_SCOPE := "catalog".
Definition CLIENT_ID := "client_id".
Definition PREFIX := "prefix".
Definition CLIENT_SECRET := "client_secret".
Definition CLIENT_CREDENTIALS := "client_credentials".
Definition CREDENTIAL := "credential".
Definition GRANT_TYPE := "grant_type".
Definition SCOPE := "scope".
Definition SEMICOLON : ascii := ":"%char.
Definition SIGV4 := "rest.sigv4-enabled".
Definition AUTH_URL := "rest.authorization-url".
Definition HEADER_PREFIX := "header.".

(** [b"\x1f".decode(UTF8)]: the single character U+001F. *)
Definition NAMESPACE_SEPARATOR_CHAR : ascii := ascii_of_nat 31.
Definition NAMESPACE_SEPARATOR : string := String NAMESPACE_SEPARATOR_CHAR EmptyString.

(** ** Exceptions *)

(** The exception classes that this module raises or lets through. *)
Inductive ErrorKind : Set :=
  | AuthorizationExpiredError
  | BadRequestError
  | CommitFailedException
  | CommitStateUnknownException
  | ForbiddenError
  | NamespaceAlreadyExistsError
  | NoSuchNamespaceError
  | NoSuchTableError
  | OAuthError
  | RESTError
  | ServerError
  | ServiceUnavailableError
  | TableAlreadyExistsError
  | UnauthorizedError
  | NotImplementedError
  | ValueError
  | TypeError
  | KeyError
  | AttributeError
  | JSONDecodeError
  | ValidationError.

#[global] Instance ErrorKind_eq_dec : EqDecision ErrorKind.
Proof. solve_decision. Defined.

Record PyException : Set := Raise { exc_kind : ErrorKind; exc_msg : string }.

(** The outcome of a call: an exception or a value. *)
Definition Outcome (A : Type) : Type := PyException + A.

(** ** JSON values, as [response.json()] returns them *)

#[local] Unset Elimination Schemes.
Inductive json : Set :=
  | JNull
  | JBool (b : bool)
  | JNum (n : Z)
  | JStr (s : string)
  | JArr (items : list json)
  | JObj (members : list (string * json)).
#[local] Set Elimination Schemes.

(** A call that unpacks [value] into keyword arguments: [value] must be a
    mapping, otherwise Python raises [TypeError] at the call. *)
Definition kwargs (callee : string) (value : json) : Outcome (list (string * json)) :=
  match value with
  | JObj members => inr members
  | _ => inl (Raise TypeError (callee +:+ "() argument after ** must be a mapping"))
  end.

(** What pydantic makes of the keyword arguments of a model: the model, or
    the [msg] entries of the [ValidationError]. *)
Inductive Validated (A : Type) : Type :=
  | Valid (model : A)
  | Invalid (errs : list string).
Arguments Valid {A} model.
Arguments Invalid {A} errs.

(** ** Identifiers *)

(** [Union[str, Identifier]] *)
Inductive IdentifierArg : Set :=
  | IdStr (s : string)
  | IdTuple (t : list string).

(** [TableIdentifier]: [namespace.root] and [name]. *)
Record TableIdentifier : Set := { namespace_root : list string; ti_name : string }.

(** The JSON document of a table's metadata, kept as decoded. *)
Definition TableMetadata : Set := json.

Record TableResponse : Set := {
  metadata_location : string;
  metadata : TableMetadata;
  config : gmap string string;
}.

Record TokenResponse : Set := { access_token : string; token_type : string }.

Record ConfigResponse : Set := {
  defaults : gmap string string;
  overrides : gmap string string;
}.

Record ListTableResponseEntry : Set := { entry_name : string; entry_namespace : list string }.

Record ErrorResponseMessage : Set := { message : string; type : string; code : Z }.

Record OAuthErrorResponse : Set := {
  error : string;
  error_description : option string;
  error_uri : option string;
}.

Record CommitTableRequest : Set := { request_identifier : TableIdentifier; request_json : string }.

(** The arguments of [create_table] besides the identifier; schema,
    partition spec and sort order are documents this module only forwards. *)
Record CreateTableArgs : Set := {
  arg_schema : json;
  arg_location : option string;
  arg_partition_spec : json;
  arg_sort_order : json;
  arg_properties : gmap string string;
}.

(** ** HTTP *)

Inductive Method : Set := GET | POST | DELETE.

Inductive Body : Set :=
  | NoBody
  | FormData (fields : list (string * option string))
  | RawData (bytes : string)
  | JsonBody (payload : json).

Record Request : Set := {
  rq_method : Method;
  rq_url : string;
  rq_params : list (string * string);
  rq_body : Body;
  rq_headers : gmap string string;
}.

Record Response : Set := { status_code : Z; text : string }.

(** [requests.HTTPError]; [response] is the attribute [exc.response]. *)
Record HTTPError : Set := { response : option Response }.

(** [response.raise_for_status()]: an [HTTPError] for the client and server
    error statuses, nothing otherwise. *)
Definition raise_for_status (r : Response) : option HTTPError :=
  if (400 <=? status_code r) && (status_code r <? 600)
  then Some {| response := Some r |}
  else None.

(** ** What lies outside this module

    Code of other modules and libraries that [rest.py] calls.  The
    definitions below take it as a parameter [E]. *)
Record Externals : Type := {
  (** [Catalog.identifier_to_tuple] *)
  identifier_to_tuple : IdentifierArg -> list string;
  (** [Catalog.identifier_to_tuple_without_catalog], given [self.name] *)
  identifier_to_tuple_without_catalog : string -> IdentifierArg -> list string;
  (** [str(identifier)] *)
  str_of_identifier : IdentifierArg -> string;
  (** the headers of a fresh [requests.Session()] *)
  default_headers : gmap string string;
  (** the catalog service: its answer to a request, given the earlier ones *)
  server : list Request -> Request -> Response;
  (** [json.loads] behind [response.json()]; [None] is [JSONDecodeError] *)
  json_loads : string -> option json;
  (** pydantic validation of the response models declared in this module *)
  validate_ErrorResponse : list (string * json) -> Validated ErrorResponseMessage;
  validate_OAuthErrorResponse : list (string * json) -> Validated OAuthErrorResponse;
  validate_TokenResponse : list (string * json) -> Validated TokenResponse;
  validate_ConfigResponse : list (string * json) -> Validated ConfigResponse;
  validate_TableResponse : list (string * json) -> Validated TableResponse;
  validate_ListTablesResponse :
    list (string * json) -> Validated (list ListTableResponseEntry);
  validate_CommitTableResponse : list (string * json) -> Validated json;
  (** [table_response.metadata.properties] *)
  metadata_properties : TableMetadata -> gmap string string;
  (** schema conversion and the three [assign_fresh_*_ids] of [create_table] *)
  assign_fresh_ids : CreateTableArgs -> Outcome CreateTableArgs;
  (** [model_dump_json().encode(UTF8)] of the two request models *)
  dump_CreateTableRequest : string -> CreateTableArgs -> string;
  dump_RegisterTableRequest : string -> string -> string;
  (** [pyiceberg.__version__] *)
  version : string;
}.

(** ** Header dictionaries

    [session.headers] is a [requests.structures.CaseInsensitiveDict]: it
    keeps its entries under the lowered name, so it holds at most one entry
    for a name, whatever the case of its letters, and it lists that entry
    under the spelling it was last set with.  Here it is the map from the
    spellings to the values. *)
Module CaseInsensitiveDict.

(** The dictionary without the entry of the name [key], however spelled. *)
Definition without (key : string) (d : gmap string string) : gmap string string :=
  filter (fun item : string * string => PyStr.lower item.1 <> PyStr.lower key) d.

(** [d[key] = value]: the entry of that name is replaced, spelling and
    value. *)
Definition setitem (key value : string) (d : gmap string string) : gmap string string :=
  <[key := value]> (without key d).

(** [d.get(key)]: the value of the entry of that name, however spelled. *)
Definition get (key : string) (d : gmap string string) : option string :=
  snd <$> head (map_to_list
                  (filter (fun item : string * string =>
                             PyStr.lower item.1 = PyStr.lower key) d)).

(** [d.update(other)]: [d[key] = other[key]] for each key of [other].  The
    keys are taken in the order [other] lists them; when two keys of [other]
    differ in case only, Python takes them in the order of insertion, which
    a map does not record, and the one taken last stays. *)
Definition update (other d : gmap string string) : gmap string string :=
  foldl (fun acc (item : string * string) => setitem item.1 item.2 acc) d
        (map_to_list other).

End CaseInsensitiveDict.

(** ** The catalog object and the world around it *)

(** [requests.Session]: [headers] are the items of its header dictionary. *)
Record Session : Set := { headers : gmap string string }.

(** The handle [_load_file_io] returns, kept as the arguments it was given. *)
Record FileIO : Set := { io_properties : gmap string string; io_location : string }.

Record Table : Set := {
  identifier : list string;
  table_metadata_location : string;
  table_metadata : TableMetadata;
  io : FileIO;
}.

(** [RestCatalog]: [name] and [properties] are set by [Catalog.__init__];
    [_session] refers to a [Session] object once [__init__] has created it. *)
Record RestCatalog : Set := {
  name : string;
  properties : gmap string string;
  uri : string;
  _session : option nat;
}.

Record World : Set := {
  self : RestCatalog;
  sessions : list Session;
  wire : list Request;
}.

Definition M (A : Type) : Type := World -> Outcome A * World.

Definition ret {A} (a : A) : M A := fun w => (inr a, w).
Definition raise {A} (e : PyException) : M A := fun w => (inl e, w).
Definition bind {A B} (m : M A) (k : A -> M B) : M B :=
  fun w => match m w with
           | (inl e, w') => (inl e, w')
           | (inr a, w') => k a w'
           end.
Definition lift {A} (o : Outcome A) : M A := fun w => (o, w).

Declare Scope py_scope.
Delimit Scope py_scope with py.
Notation "'let!' x ':=' m 'in' k" := (bind m (fun x => k))
  (at level 10, x name, m at level 100, k at level 200) : py_scope.
Notation "'run!' m 'in' k" := (bind m (fun _ => k))
  (at level 10, m at level 100, k at level 200) : py_scope.
Local Open Scope py_scope.

Definition get_self : M RestCatalog := fun w => (inr (self w), w).
Definition set_properties (p : gmap string string) : M unit :=
  fun w => (inr tt, {| self := {| name := name (self w); properties := p;
                                  uri := uri (self w); _session := _session (self w) |};
                       sessions := sessions w; wire := wire w |}).
Definition set_uri (u : string) : M unit :=
  fun w => (inr tt, {| self := {| name := name (self w); properties := properties (self w);
                                  uri := u; _session := _session (self w) |};
                       sessions := sessions w; wire := wire w |}).
Definition set_session (s : nat) : M unit :=
  fun w => (inr tt, {| self := {| name := name (self w); properties := properties (self w);
                                  uri := uri (self w); _session := Some s |};
                       sessions := sessions w; wire := wire w |}).

(** [Session()]: a new object with the default headers. *)
Definition new_session (E : Externals) : M nat :=
  fun w => (inr (length (sessions w)),
            {| self := self w;
               sessions := sessions w ++ [ {| headers := default_headers E |} ];
               wire := wire w |}).

(** [session.headers]; a reference always points to an allocated session,
    the empty mapping stands for the lookup that cannot happen. *)
Definition session_headers (s : nat) : M (gmap string string) :=
  fun w => (inr (from_option headers ∅ (sessions w !! s)), w).

(** [session.headers[key] = value] *)
Definition set_header (s : nat) (key value : string) : M unit :=
  fun w => (inr tt,
            {| self := self w;
               sessions :=
                 alter (fun ss => {| headers := CaseInsensitiveDict.setitem key value
                                                  (headers ss) |})
                       s (sessions w);
               wire := wire w |}).

(** [session.headers.update(more)] *)
Definition update_headers (s : nat) (more : gmap string string) : M unit :=
  fun w => (inr tt,
            {| self := self w;
               sessions :=
                 alter (fun ss => {| headers := CaseInsensitiveDict.update more
                                                  (headers ss) |})
                       s (sessions w);
               wire := wire w |}).

(** [self._session] *)
Definition the_session : M nat :=
  fun w => match _session (self w) with
           | Some s => (inr s, w)
           | None => (inl (Raise AttributeError "'RestCatalog' object has no attribute '_session'"), w)
           end.

(** [session.get], [session.post], [session.delete]: the request goes out
    with the session's headers, overridden by those of the call, and the
    service answers. *)
Definition send (E : Externals) (s : nat) (method : Method) (url : string)
    (params : list (string * string)) (body : Body)
    (call_headers : gmap string string) : M Response :=
  fun w =>
    let rq := {| rq_method := method; rq_url := url; rq_params := params;
                 rq_body := body;
                 rq_headers := call_headers ∪ from_option headers ∅ (sessions w !! s) |} in
    (inr (server E (wire w) rq),
     {| self := self w; sessions := sessions w; wire := wire w ++ [rq] |}).

(** ** Endpoints: each template with its [format] arguments filled in *)

Module Endpoints.
Definition get_config : string := "config".
Definition list_tables (namespace : string) : string :=
  "namespaces/" +:+ namespace +:+ "/tables".
Definition create_table (namespace : string) : string :=
  "namespaces/" +:+ namespace +:+ "/tables".
Definition register_table (namespace : string) : string :=
  "namespaces/" +:+ namespace +:+ "/register".
Definition load_table (namespace table : string) : string :=
  "namespaces/" +:+ namespace +:+ "/tables/" +:+ table.
Definition update_table (namespace table : string) : string :=
  "namespaces/" +:+ namespace +:+ "/tables/" +:+ table.
Definition drop_table (namespace table : string) (purge : bool) : string :=
  "namespaces/" +:+ namespace +:+ "/tables/" +:+ table +:+ "?purgeRequested="
    +:+ (if purge then "True" else "False").
Definition get_token : string := "oauth/tokens".
Definition rename_table : string := "tables/rename".
Definition list_namespaces : string := "namespaces".
Definition create_namespace : string := "namespaces".
Definition load_namespace_metadata (namespace : string) : string :=
  "namespaces/" +:+ namespace.
Definition drop_namespace (namespace : string) : string :=
  "namespaces/" +:+ namespace.
Definition update_namespace_properties (namespace : string) : string :=
  "namespaces/" +:+ namespace +:+ "/properties".
End Endpoints.

(** ** Methods that need neither the session nor the service *)

(** The two keys of the dictionary [_split_identifier_for_path] returns. *)
Record PathParts : Set := { namespace : string; table : string }.

(** The two keys of the dictionary [_split_identifier_for_json] returns. *)
Record JsonParts : Set := { json_namespace : list string; json_name : string }.

(** [Union[str, Identifier, TableIdentifier]] *)
Inductive PathIdentifier : Set :=
  | OfArg (i : IdentifierArg)
  | OfTableIdentifier (t : TableIdentifier).

(** [a, b = parts]: unpacking into exactly two names. *)
Definition unpack2 (parts : list string) : Outcome (string * string) :=
  match parts with
  | [a; b] => inr (a, b)
  | [] | [_] =>
      inl (Raise ValueError "not enough values to unpack (expected 2)")
  | _ => inl (Raise ValueError "too many values to unpack (expected 2)")
  end.

(** The first statement of [_fetch_access_token]: client id and secret. *)
Definition split_credential (credential : string) : Outcome (option string * string) :=
  if PyStr.contains SEMICOLON credential then
    match unpack2 (PyStr.split SEMICOLON credential) with
    | inl e => inl e
    | inr (client_id, client_secret) => inr (Some client_id, client_secret)
    end
  else inr (None, credential).

(** [d.update(other)] *)
Definition dict_update (d other : gmap string string) : gmap string string :=
  other ∪ d.

(** The choice of the exception class in [_handle_non_200_response]. *)
Definition exception_class (error_handler : gmap Z ErrorKind) (code : Z) : ErrorKind :=
  match error_handler !! code with
  | Some handler => handler
  | None =>
      if decide (code = 400) then BadRequestError
      else if decide (code = 401) then UnauthorizedError
      else if decide (code = 403) then ForbiddenError
      else if decide (code = 422) then RESTError
      else if decide (code = 419) then AuthorizationExpiredError
      else if decide (code = 501) then NotImplementedError
      else if decide (code = 503) then ServiceUnavailableError
      else if (500 <=? code) && (code <? 600) then ServerError
      else RESTError
  end.

(** The message built from a valid [OAuthErrorResponse]. *)
Definition oauth_message (parsed : OAuthErrorResponse) : string :=
  let response := error parsed in
  let response :=
    match error_description parsed with
    | Some description =>
        if PyStr.truthy description then response +:+ ": " +:+ description else response
    | None => response
    end in
  match error_uri parsed with
  | Some uri => if PyStr.truthy uri then response +:+ " (" +:+ uri +:+ ")" else response
  | None => response
  end.

Section RestCatalog.

Context (E : Externals).

(** A response model built from the keyword arguments [response.json()]
    unpacks to, outside any [try]: the three exceptions escape. *)
Definition model_of {A} (callee : string)
    (validate : list (string * json) -> Validated A) (r : Response) : Outcome A :=
  match json_loads E (text r) with
  | None => inl (Raise JSONDecodeError "Expecting value")
  | Some value =>
      match kwargs callee value with
      | inl e => inl e
      | inr members =>
          match validate members with
          | Valid model => inr model
          | Invalid errs => inl (Raise ValidationError (PyStr.join ", " errs))
          end
      end
  end.

Definition _check_valid_namespace_identifier (identifier : IdentifierArg)
  : Outcome (list string) :=
  let identifier_tuple := identifier_to_tuple E identifier in
  if (length identifier_tuple <? 1)%nat
  then inl (Raise NoSuchNamespaceError
              ("Empty namespace identifier: " +:+ str_of_identifier E identifier))
  else inr identifier_tuple.

Definition url (c : RestCatalog) (endpoint : string) (prefixed : bool) : string :=
  let url := uri c in
  let url := if PyStr.endswith_slash url then url +:+ "v1/" else url +:+ "/v1/" in
  let url :=
    if prefixed then
      let url := url +:+ default "" (properties c !! PREFIX) in
      if PyStr.endswith_slash url then url else url +:+ "/"
    else url in
  url +:+ endpoint.

Definition auth_url (c : RestCatalog) : string :=
  match properties c !! AUTH_URL with
  | Some u => if PyStr.truthy u then u else url c Endpoints.get_token false
  | None => url c Endpoints.get_token false
  end.

Definition _identifier_to_validated_tuple (identifier : IdentifierArg)
  : Outcome (list string) :=
  let identifier_tuple := identifier_to_tuple E identifier in
  if (length identifier_tuple <=? 1)%nat
  then inl (Raise NoSuchTableError
              ("Missing namespace or invalid identifier: "
                 +:+ PyStr.join "." identifier_tuple))
  else inr identifier_tuple.

Definition _split_identifier_for_path (identifier : PathIdentifier) : Outcome PathParts :=
  match identifier with
  | OfTableIdentifier t =>
      inr {| namespace := PyStr.join NAMESPACE_SEPARATOR (tail (namespace_root t));
             table := ti_name t |}
  | OfArg i =>
      match _identifier_to_validated_tuple i with
      | inl e => inl e
      | inr identifier_tuple =>
          inr {| namespace := PyStr.join NAMESPACE_SEPARATOR (removelast identifier_tuple);
                 table := List.last identifier_tuple "" |}
      end
  end.

Definition _split_identifier_for_json (identifier : IdentifierArg) : Outcome JsonParts :=
  match _identifier_to_validated_tuple identifier with
  | inl e => inl e
  | inr identifier_tuple =>
      inr {| json_namespace := removelast identifier_tuple;
             json_name := List.last identifier_tuple "" |}
  end.

(** [_handle_non_200_response] never returns: the value is the exception
    that leaves it.  A [TypeError] of the unpacking is caught by neither
    [except] clause. *)
Definition _handle_non_200_response (exc : HTTPError)
    (error_handler : gmap Z ErrorKind) : PyException :=
  match response exc with
  | None => Raise ValueError "Did not receive a response"
  | Some r =>
      let code := status_code r in
      let exception := exception_class error_handler code in
      match json_loads E (text r) with
      | None =>
          Raise exception
            ("RESTError " +:+ pretty code +:+ ": Could not decode json payload: " +:+ text r)
      | Some value =>
          let unexpected (errs : list string) :=
            Raise exception
              ("RESTError " +:+ pretty code +:+ ": Received unexpected JSON Payload: "
                 +:+ text r +:+ ", errors: " +:+ PyStr.join ", " errs) in
          if decide (exception = OAuthError) then
            match kwargs "OAuthErrorResponse" value with
            | inl type_error => type_error
            | inr members =>
                match validate_OAuthErrorResponse E members with
                | Valid parsed => Raise exception (oauth_message parsed)
                | Invalid errs => unexpected errs
                end
            end
          else
            match kwargs "ErrorResponse" value with
            | inl type_error => type_error
            | inr members =>
                match validate_ErrorResponse E members with
                | Valid parsed => Raise exception (type parsed +:+ ": " +:+ message parsed)
                | Invalid errs => unexpected errs
                end
            end
      end
  end.

(** [try: response.raise_for_status()
     except HTTPError as exc: self._handle_non_200_response(exc, handler)] *)
Definition check_status (r : Response) (error_handler : gmap Z ErrorKind) : M unit :=
  match raise_for_status r with
  | Some exc => raise (_handle_non_200_response exc error_handler)
  | None => ret tt
  end.


(** *** Token handling and the session *)

Definition _fetch_access_token (session : nat) (credential : string) : M string :=
  let! ids := lift (split_credential credential) in
  let '(client_id, client_secret) := ids in
  let! c := get_self in
  let scope :=
    match properties c !! SCOPE with
    | Some s => if PyStr.truthy s then s else CATALOG_SCOPE
    | None => CATALOG_SCOPE
    end in
  let data := [ (GRANT_TYPE, Some CLIENT_CREDENTIALS); (CLIENT_ID, client_id);
                (CLIENT_SECRET, Some client_secret); (SCOPE, Some scope) ] in
  let! session_headers := session_headers session in
  let! r := send E session POST (auth_url c) [] (FormData data)
              (<["Content-type" := "application/x-www-form-urlencoded"]> session_headers) in
  run! check_status r {[ 400 := OAuthError; 401 := OAuthError ]} in
  let! token := lift (model_of "TokenResponse" (validate_TokenResponse E) r) in
  ret (access_token token).

Definition _refresh_token (session : option nat) (initial_token : option string) : M unit :=
  let! session := match session with Some s => ret s | None => the_session end in
  run! (match initial_token with
        | Some token =>
            let! c := get_self in
            set_properties (<[TOKEN := token]> (properties c))
        | None =>
            let! c := get_self in
            match properties c !! CREDENTIAL with
            | Some credential =>
                let! token := _fetch_access_token session credential in
                let! c := get_self in
                set_properties (<[TOKEN := token]> (properties c))
            | None => ret tt
            end
        end) in
  let! c := get_self in
  match properties c !! TOKEN with
  | Some token =>
      if PyStr.truthy token
      then set_header session AUTHORIZATION_HEADER (BEARER_PREFIX +:+ " " +:+ token)
      else ret tt
  | None => ret tt
  end.

Definition _extract_headers_from_properties (c : RestCatalog) : gmap string string :=
  list_to_map
    (omap (M := list)
          (fun item : string * string =>
             match PyStr.strip_prefix HEADER_PREFIX item.1 with
             | Some header => Some (header, item.2)
             | None => None
             end)
          (map_to_list (properties c))).

Definition _config_headers (session : nat) : M unit :=
  run! set_header session "Content-type" "application/json" in
  run! set_header session "X-Client-Version" ICEBERG_REST_SPEC_VERSION in
  run! set_header session "User-Agent" ("PyIceberg/" +:+ version E) in
  run! set_header session "X-Iceberg-Access-Delegation" "vended-credentials" in
  let! c := get_self in
  update_headers session (_extract_headers_from_properties c).

(** The TLS properties and the SigV4 adapter only set [session.verify],
    [session.cert] and the transport adapter; sessions are kept here as
    their headers, and requests as the session hands them over. *)
Definition _create_session : M nat :=
  let! session := new_session E in
  let! c := get_self in
  run! _refresh_token (Some session) (properties c !! TOKEN) in
  run! _config_headers session in
  ret session.

Definition _fetch_config : M unit :=
  let! c := get_self in
  let params :=
    match properties c !! WAREHOUSE_LOCATION with
    | Some warehouse_location =>
        if PyStr.truthy warehouse_location
        then [(WAREHOUSE_LOCATION, warehouse_location)] else []
    | None => []
    end in
  let! session := _create_session in
  let! c := get_self in
  let! r := send E session GET (url c Endpoints.get_config false) params NoBody ∅ in
  run! check_status r ∅ in
  let! config_response := lift (model_of "ConfigResponse" (validate_ConfigResponse E) r) in
  let config := defaults config_response in
  let! c := get_self in
  let config := dict_update config (properties c) in
  let config := dict_update config (overrides config_response) in
  run! set_properties config in
  match config !! URI with
  | Some u => set_uri u
  | None => raise (Raise KeyError "'uri'")
  end.

(** [RestCatalog.__init__]; [Catalog.__init__] stores the name and the
    properties it is given. *)
Definition __init__ (catalog_name : string) (caller_properties : gmap string string)
  : M unit :=
  fun w =>
    let w0 := {| self := {| name := catalog_name; properties := caller_properties;
                            uri := ""; _session := None |};
                 sessions := sessions w; wire := wire w |} in
    (match caller_properties !! URI with
     | None => raise (Raise KeyError "'uri'")
     | Some u =>
         run! set_uri u in
         run! _fetch_config in
         let! session := _create_session in
         set_session session
     end) w0.

Definition _response_to_table (identifier_tuple : list string)
    (table_response : TableResponse) : M Table :=
  let! c := get_self in
  ret {| identifier := if PyStr.truthy (name c) then name c :: identifier_tuple
                       else identifier_tuple;
         table_metadata_location := metadata_location table_response;
         table_metadata := metadata table_response;
         io := {| io_properties :=
                    dict_update (metadata_properties E (metadata table_response))
                                (config table_response);
                  io_location := metadata_location table_response |} |}.

(** *** The retry decorator *)

Definition _retry_hook : M unit := _refresh_token None None.

Definition retry_if_exception_type (kind : ErrorKind) (e : PyException) : bool :=
  bool_decide (exc_kind e = kind).

Definition stop_after_attempt (max_attempt_number attempt_number : nat) : bool :=
  (max_attempt_number <=? attempt_number)%nat.

(** [_RETRY_ARGS]; [reraise] makes the last exception leave as it is. *)
Record RetryArgs : Type := {
  retry_on : PyException -> bool;
  stop : nat -> bool;
  before_sleep : M unit;
}.

Definition _RETRY_ARGS : RetryArgs :=
  {| retry_on := retry_if_exception_type AuthorizationExpiredError;
     stop := stop_after_attempt 2;
     before_sleep := _retry_hook |}.

(** The loop of tenacity from attempt [attempt_number] on.  [fuel] bounds
    the attempts still to come; [retry] gives it enough for [stop]. *)
Fixpoint retrying {A} (args : RetryArgs) (fuel attempt_number : nat) (fn : M A) : M A :=
  fun w =>
    match fn w with
    | (inr result, w1) => (inr result, w1)
    | (inl e, w1) =>
        if negb (retry_on args e) then (inl e, w1)
        else if stop args attempt_number then (inl e, w1)
        else
          match fuel with
          | O => (inl e, w1)
          | S fuel' =>
              match before_sleep args w1 with
              | (inl e', w2) => (inl e', w2)
              | (inr _, w2) => retrying args fuel' (S attempt_number) fn w2
              end
          end
    end.

(** The decorator [retry] with [_RETRY_ARGS] *)
Definition retry {A} (fn : M A) : M A := retrying _RETRY_ARGS 2 1 fn.

(** *** Table operations

    [def_f] is the function as written under the decorator, [f] the
    method of the class, that is [def_f] wrapped by [retry]. *)

Definition def_create_table (identifier : IdentifierArg) (args : CreateTableArgs)
  : M Table :=
  let! fresh := lift (assign_fresh_ids E args) in
  let! namespace_and_table := lift (_split_identifier_for_path (OfArg identifier)) in
  let serialized_json := dump_CreateTableRequest E (table namespace_and_table) fresh in
  let! session := the_session in
  let! c := get_self in
  let! r := send E session POST
              (url c (Endpoints.create_table (namespace namespace_and_table)) true)
              [] (RawData serialized_json) ∅ in
  run! check_status r {[ 409 := TableAlreadyExistsError ]} in
  let! table_response := lift (model_of "TableResponse" (validate_TableResponse E) r) in
  _response_to_table (identifier_to_tuple E identifier) table_response.

Definition create_table (identifier : IdentifierArg) (args : CreateTableArgs) : M Table :=
  retry (def_create_table identifier args).

Definition def_register_table (identifier : IdentifierArg) (location : string)
  : M Table :=
  let! namespace_and_table := lift (_split_identifier_for_path (OfArg identifier)) in
  let serialized_json :=
    dump_RegisterTableRequest E (table namespace_and_table) location in
  let! session := the_session in
  let! c := get_self in
  let! r := send E session POST
              (url c (Endpoints.register_table (namespace namespace_and_table)) true)
              [] (RawData serialized_json) ∅ in
  run! check_status r {[ 409 := TableAlreadyExistsError ]} in
  let! table_response := lift (model_of "TableResponse" (validate_TableResponse E) r) in
  _response_to_table (identifier_to_tuple E identifier) table_response.

Definition register_table (identifier : IdentifierArg) (location : string) : M Table :=
  retry (def_register_table identifier location).

Definition def_list_tables (namespace : IdentifierArg) : M (list (list string)) :=
  let! namespace_tuple := lift (_check_valid_namespace_identifier namespace) in
  let namespace_concat := PyStr.join NAMESPACE_SEPARATOR namespace_tuple in
  let! session := the_session in
  let! c := get_self in
  let! r := send E session GET (url c (Endpoints.list_tables namespace_concat) true)
              [] NoBody ∅ in
  run! check_status r {[ 404 := NoSuchNamespaceError ]} in
  let! identifiers :=
    lift (model_of "ListTablesResponse" (validate_ListTablesResponse E) r) in
  ret (map (fun entry => (entry_namespace entry ++ [entry_name entry])%list) identifiers).

Definition list_tables (namespace : IdentifierArg) : M (list (list string)) :=
  retry (def_list_tables namespace).

Definition def_load_table (identifier : IdentifierArg) : M Table :=
  let! c := get_self in
  let identifier_tuple := identifier_to_tuple_without_catalog E (name c) identifier in
  let! session := the_session in
  let! parts := lift (_split_identifier_for_path (OfArg (IdTuple identifier_tuple))) in
  let! r := send E session GET
              (url c (Endpoints.load_table (namespace parts) (table parts)) true)
              [] NoBody ∅ in
  run! check_status r {[ 404 := NoSuchTableError ]} in
  let! table_response := lift (model_of "TableResponse" (validate_TableResponse E) r) in
  _response_to_table identifier_tuple table_response.

Definition load_table (identifier : IdentifierArg) : M Table :=
  retry (def_load_table identifier).

Definition def_drop_table (identifier : IdentifierArg) (purge_requested : bool) : M unit :=
  let! c := get_self in
  let identifier_tuple := identifier_to_tuple_without_catalog E (name c) identifier in
  let! session := the_session in
  let! parts := lift (_split_identifier_for_path (OfArg (IdTuple identifier_tuple))) in
  let! r := send E session DELETE
              (url c (Endpoints.drop_table (namespace parts) (table parts) purge_requested)
                   true)
              [] NoBody ∅ in
  check_status r {[ 404 := NoSuchTableError ]}.

Definition drop_table (identifier : IdentifierArg) (purge_requested : bool) : M unit :=
  retry (def_drop_table identifier purge_requested).

Definition def_purge_table (identifier : IdentifierArg) : M unit :=
  drop_table identifier true.

Definition purge_table (identifier : IdentifierArg) : M unit :=
  retry (def_purge_table identifier).

Definition json_of_parts (parts : JsonParts) : json :=
  JObj [ ("namespace", JArr (map JStr (json_namespace parts)));
         ("name", JStr (json_name parts)) ].

Definition def_rename_table (from_identifier to_identifier : IdentifierArg) : M Table :=
  let! c := get_self in
  let from_identifier_tuple :=
    identifier_to_tuple_without_catalog E (name c) from_identifier in
  let! source := lift (_split_identifier_for_json (IdTuple from_identifier_tuple)) in
  let! destination := lift (_split_identifier_for_json to_identifier) in
  let payload := JObj [ ("source", json_of_parts source);
                        ("destination", json_of_parts destination) ] in
  let! session := the_session in
  let! r := send E session POST (url c Endpoints.rename_table true)
              [] (JsonBody payload) ∅ in
  run! check_status r {[ 404 := NoSuchTableError; 409 := TableAlreadyExistsError ]} in
  load_table to_identifier.

Definition rename_table (from_identifier to_identifier : IdentifierArg) : M Table :=
  retry (def_rename_table from_identifier to_identifier).

Definition def__commit_table (table_request : CommitTableRequest) : M json :=
  let! session := the_session in
  let! parts :=
    lift (_split_identifier_for_path (OfTableIdentifier (request_identifier table_request))) in
  let! c := get_self in
  let! r := send E session POST
              (url c (Endpoints.update_table (namespace parts) (table parts)) true)
              [] (RawData (request_json table_request)) ∅ in
  run! check_status r {[ 409 := CommitFailedException;
                         500 := CommitStateUnknownException;
                         502 := CommitStateUnknownException;
                         504 := CommitStateUnknownException ]} in
  lift (model_of "CommitTableResponse" (validate_CommitTableResponse E) r).

Definition _commit_table (table_request : CommitTableRequest) : M json :=
  retry (def__commit_table table_request).

End RestCatalog.

(** ** One setting of the parameters, for running the definitions

    Identifiers are converted as [pyiceberg.catalog.Catalog] does, the
    service answers from a script, one response per request, [json_loads]
    knows the documents listed in [documents], and the validators ask for
    the required fields of each model with the declared types. *)
Module Fixture.

Definition quote : string := String (ascii_of_nat 34) EmptyString.

(** [json.dumps] for documents whose strings need no escape. *)
Fixpoint dumps (v : json) : string :=
  match v with
  | JNull => "null"
  | JBool b => if b then "true" else "false"
  | JNum n => pretty n
  | JStr s => quote +:+ s +:+ quote
  | JArr items =>
      "[" +:+ (fix go (l : list json) : string :=
                 match l with
                 | [] => ""
                 | [x] => dumps x
                 | x :: l' => dumps x +:+ ", " +:+ go l'
                 end) items +:+ "]"
  | JObj members =>
      "{" +:+ (fix go (l : list (string * json)) : string :=
                 match l with
                 | [] => ""
                 | [(k, x)] => quote +:+ k +:+ quote +:+ ": " +:+ dumps x
                 | (k, x) :: l' => quote +:+ k +:+ quote +:+ ": " +:+ dumps x +:+ ", " +:+ go l'
                 end) members +:+ "}"
  end.

Fixpoint lookup_member (key : string) (members : list (string * json)) : option json :=
  match members with
  | [] => None
  | (k, v) :: rest => if String.eqb k key then Some v else lookup_member key rest
  end.

Fixpoint str_items (items : list json) : option (list string) :=
  match items with
  | [] => Some []
  | JStr s :: rest => option_map (cons s) (str_items rest)
  | _ => None
  end.

Fixpoint str_members (members : list (string * json)) : option (gmap string string) :=
  match members with
  | [] => Some ∅
  | (k, JStr s) :: rest => option_map (fun m => <[k := s]> m) (str_members rest)
  | _ => None
  end.

Definition required : list string := ["Field required"].

Definition validate_ErrorResponse (members : list (string * json))
  : Validated ErrorResponseMessage :=
  match lookup_member "error" members with
  | Some (JObj inner) =>
      match lookup_member "message" inner, lookup_member "type" inner,
            lookup_member "code" inner with
      | Some (JStr m), Some (JStr t), Some (JNum c) =>
          Valid {| message := m; type := t; code := c |}
      | _, _, _ => Invalid required
      end
  | _ => Invalid required
  end.

Definition optional_str (key : string) (members : list (string * json)) : option string :=
  match lookup_member key members with
  | Some (JStr s) => Some s
  | _ => None
  end.

Definition oauth_errors : list string :=
  [ "invalid_request"; "invalid_client"; "invalid_grant"; "unauthorized_client";
    "unsupported_grant_type"; "invalid_scope" ].

Definition validate_OAuthErrorResponse (members : list (string * json))
  : Validated OAuthErrorResponse :=
  match lookup_member "error" members with
  | Some (JStr e) =>
      if existsb (String.eqb e) oauth_errors
      then Valid {| error := e;
                    error_description := optional_str "error_description" members;
                    error_uri := optional_str "error_uri" members |}
      else Invalid ["Input should be one of the OAuth error codes"]
  | _ => Invalid required
  end.

Definition validate_TokenResponse (members : list (string * json))
  : Validated TokenResponse :=
  match lookup_member "access_token" members, lookup_member "token_type" members with
  | Some (JStr a), Some (JStr t) => Valid {| access_token := a; token_type := t |}
  | _, _ => Invalid required
  end.

Definition validate_ConfigResponse (members : list (string * json))
  : Validated ConfigResponse :=
  match lookup_member "defaults" members, lookup_member "overrides" members with
  | Some (JObj d), Some (JObj o) =>
      match str_members d, str_members o with
      | Some d', Some o' => Valid {| defaults := d'; overrides := o' |}
      | _, _ => Invalid ["Input should be a valid string"]
      end
  | _, _ => Invalid required
  end.

Definition validate_TableResponse (members : list (string * json))
  : Validated TableResponse :=
  match lookup_member "metadata-location" members, lookup_member "metadata" members with
  | Some (JStr l), Some m =>
      match lookup_member "config" members with
      | Some (JObj c) =>
          match str_members c with
          | Some c' => Valid {| metadata_location := l; metadata := m; config := c' |}
          | None => Invalid ["Input should be a valid string"]
          end
      | Some _ => Invalid ["Input should be a valid dictionary"]
      | None => Valid {| metadata_location := l; metadata := m; config := ∅ |}
      end
  | _, _ => Invalid required
  end.

Definition validate_entry (v : json) : option ListTableResponseEntry :=
  match v with
  | JObj members =>
      match lookup_member "name" members, lookup_member "namespace" members with
      | Some (JStr n), Some (JArr ns) =>
          option_map (fun ns' => {| entry_name := n; entry_namespace := ns' |}) (str_items ns)
      | _, _ => None
      end
  | _ => None
  end.

Fixpoint validate_entries (items : list json) : option (list ListTableResponseEntry) :=
  match items with
  | [] => Some []
  | v :: rest =>
      match validate_entry v, validate_entries rest with
      | Some e, Some es => Some (e :: es)
      | _, _ => None
      end
  end.

Definition validate_ListTablesResponse (members : list (string * json))
  : Validated (list ListTableResponseEntry) :=
  match lookup_member "identifiers" members with
  | Some (JArr items) =>
      match validate_entries items with
      | Some es => Valid es
      | None => Invalid required
      end
  | _ => Invalid required
  end.

Definition validate_CommitTableResponse (members : list (string * json))
  : Validated json :=
  match lookup_member "metadata" members with
  | Some m => Valid m
  | None => Invalid required
  end.

Definition metadata_properties (m : TableMetadata) : gmap string string :=
  match m with
  | JObj members =>
      match lookup_member "properties" members with
      | Some (JObj p) => default ∅ (str_members p)
      | _ => ∅
      end
  | _ => ∅
  end.

Definition identifier_to_tuple (identifier : IdentifierArg) : list string :=
  match identifier with
  | IdTuple t => t
  | IdStr s => PyStr.split "."%char s
  end.

Definition identifier_to_tuple_without_catalog (catalog_name : string)
    (identifier : IdentifierArg) : list string :=
  match identifier_to_tuple identifier with
  | first :: (_ :: _ :: _) as rest =>
      if String.eqb first catalog_name then rest else first :: rest
  | identifier_tuple => identifier_tuple
  end.

Definition str_of_identifier (identifier : IdentifierArg) : string :=
  match identifier with
  | IdStr s => s
  | IdTuple t => "(" +:+ PyStr.join ", " (map (fun s => "'" +:+ s +:+ "'") t) +:+ ")"
  end.

(** The service that answers the n-th request with the n-th response of
    [script], and with [otherwise] once the script is used up. *)
Definition scripted (script : list Response) (otherwise : Response)
  : list Request -> Request -> Response :=
  fun earlier _ => nth (length earlier) script otherwise.

Definition json_loads (documents : list json) (s : string) : option json :=
  find (fun v => String.eqb (dumps v) s) documents.

Definition assign_fresh_ids (args : CreateTableArgs) : Outcome CreateTableArgs :=
  inr args.

Definition dump_CreateTableRequest (table_name : string) (args : CreateTableArgs) : string :=
  dumps (JObj [("name", JStr table_name); ("schema", arg_schema args)]).

Definition dump_RegisterTableRequest (table_name location : string) : string :=
  dumps (JObj [("name", JStr table_name); ("metadata-location", JStr location)]).

End Fixture.

Definition fixture (documents : list json) (script : list Response)
    (otherwise : Response) : Externals :=
  {| identifier_to_tuple := Fixture.identifier_to_tuple;
     identifier_to_tuple_without_catalog := Fixture.identifier_to_tuple_without_catalog;
     str_of_identifier := Fixture.str_of_identifier;
     default_headers := {[ "Accept" := "*/*" ]};
     server := Fixture.scripted script otherwise;
     json_loads := Fixture.json_loads documents;
     validate_ErrorResponse := Fixture.validate_ErrorResponse;
     validate_OAuthErrorResponse := Fixture.validate_OAuthErrorResponse;
     validate_TokenResponse := Fixture.validate_TokenResponse;
     validate_ConfigResponse := Fixture.validate_ConfigResponse;
     validate_TableResponse := Fixture.validate_TableResponse;
     validate_ListTablesResponse := Fixture.validate_ListTablesResponse;
     validate_CommitTableResponse := Fixture.validate_CommitTableResponse;
     metadata_properties := Fixture.metadata_properties;
     assign_fresh_ids := Fixture.assign_fresh_ids;
     dump_CreateTableRequest := Fixture.dump_CreateTableRequest;
     dump_RegisterTableRequest := Fixture.dump_RegisterTableRequest;
     version := "0.6.0" |}.

(** A catalog as [__init__] leaves it, with one session and nothing sent. *)
Definition catalog_world (catalog_name : string) (props : gmap string string)
    (session_headers : gmap string string) : World :=
  {| self := {| name := catalog_name; properties := props;
                uri := "https://catalog"; _session := Some 0%nat |};
     sessions := [ {| headers := session_headers |} ];
     wire := [] |}.

(** ** Namespace operations *)

Record NamespaceResponse : Set := {
  response_namespace : list string;
  response_properties : gmap string string;
}.

Record UpdateNamespacePropertiesResponse : Set := {
  removed : list string;
  updated : list string;
  missing : list string;
}.

Record PropertiesUpdateSummary : Set := {
  summary_removed : list string;
  summary_updated : list string;
  summary_missing : list string;
}.

(** What the namespace operations call outside this module. *)
Record NamespaceExternals : Type := {
  (** pydantic validation of the three namespace response models *)
  validate_ListNamespaceResponse : list (string * json) -> Validated (list (list string));
  validate_NamespaceResponse : list (string * json) -> Validated NamespaceResponse;
  validate_UpdateNamespacePropertiesResponse :
    list (string * json) -> Validated UpdateNamespacePropertiesResponse;
  (** [template.format()] without arguments: the template as it is when it
      has no braces, an exception for a replacement field *)
  format_without_arguments : string -> Outcome string;
}.

(** A [Properties] dictionary as a JSON object. *)
Definition json_of_properties (p : gmap string string) : json :=
  JObj (map (fun item : string * string => (item.1, JStr item.2)) (map_to_list p)).

Section NamespaceOperations.

Context (E : Externals) (N : NamespaceExternals).

Definition def_create_namespace (namespace : IdentifierArg)
    (namespace_properties : gmap string string) : M unit :=
  let! namespace_tuple := lift (_check_valid_namespace_identifier E namespace) in
  let payload := JObj [ ("namespace", JArr (map JStr namespace_tuple));
                        ("properties", json_of_properties namespace_properties) ] in
  let! session := the_session in
  let! c := get_self in
  let! r := send E session POST (url c Endpoints.create_namespace true)
              [] (JsonBody payload) ∅ in
  check_status E r {[ 404 := NoSuchNamespaceError; 409 := NamespaceAlreadyExistsError ]}.

Definition create_namespace (namespace : IdentifierArg)
    (namespace_properties : gmap string string) : M unit :=
  retry E (def_create_namespace namespace namespace_properties).

Definition def_drop_namespace (namespace : IdentifierArg) : M unit :=
  let! namespace_tuple := lift (_check_valid_namespace_identifier E namespace) in
  let namespace := PyStr.join NAMESPACE_SEPARATOR namespace_tuple in
  let! session := the_session in
  let! c := get_self in
  let! r := send E session DELETE (url c (Endpoints.drop_namespace namespace) true)
              [] NoBody ∅ in
  check_status E r {[ 404 := NoSuchNamespaceError ]}.

Definition drop_namespace (namespace : IdentifierArg) : M unit :=
  retry E (def_drop_namespace namespace).

Definition def_list_namespaces (namespace : IdentifierArg) : M (list (list string)) :=
  let namespace_tuple := identifier_to_tuple E namespace in
  let! session := the_session in
  let! endpoint :=
    lift (match namespace_tuple with
          | [] => inr Endpoints.list_namespaces
          | _ :: _ =>
              format_without_arguments N
                (Endpoints.list_namespaces +:+ "?parent="
                   +:+ PyStr.join NAMESPACE_SEPARATOR namespace_tuple)
          end) in
  let! c := get_self in
  let! r := send E session GET (url c endpoint true) [] NoBody ∅ in
  run! check_status E r ∅ in
  let! namespaces :=
    lift (model_of E "ListNamespaceResponse" (validate_ListNamespaceResponse N) r) in
  ret (map (fun child_namespace => (namespace_tuple ++ child_namespace)%list) namespaces).

Definition list_namespaces (namespace : IdentifierArg) : M (list (list string)) :=
  retry E (def_list_namespaces namespace).

Definition def_load_namespace_properties (namespace : IdentifierArg)
  : M (gmap string string) :=
  let! namespace_tuple := lift (_check_valid_namespace_identifier E namespace) in
  let namespace := PyStr.join NAMESPACE_SEPARATOR namespace_tuple in
  let! session := the_session in
  let! c := get_self in
  let! r := send E session GET (url c (Endpoints.load_namespace_metadata namespace) true)
              [] NoBody ∅ in
  run! check_status E r {[ 404 := NoSuchNamespaceError ]} in
  let! parsed :=
    lift (model_of E "NamespaceResponse" (validate_NamespaceResponse N) r) in
  ret (response_properties parsed).

Definition load_namespace_properties (namespace : IdentifierArg)
  : M (gmap string string) :=
  retry E (def_load_namespace_properties namespace).

Definition def_update_namespace_properties (namespace : IdentifierArg)
    (removals : option (gset string)) (updates : gmap string string)
  : M PropertiesUpdateSummary :=
  let! namespace_tuple := lift (_check_valid_namespace_identifier E namespace) in
  let namespace := PyStr.join NAMESPACE_SEPARATOR namespace_tuple in
  let payload :=
    JObj [ ("removals", JArr (map JStr (default [] (elements <$> removals))));
           ("updates", json_of_properties updates) ] in
  let! session := the_session in
  let! c := get_self in
  let! r := send E session POST
              (url c (Endpoints.update_namespace_properties namespace) true)
              [] (JsonBody payload) ∅ in
  run! check_status E r {[ 404 := NoSuchNamespaceError ]} in
  let! parsed_response :=
    lift (model_of E "UpdateNamespacePropertiesResponse"
            (validate_UpdateNamespacePropertiesResponse N) r) in
  ret {| summary_removed := removed parsed_response;
         summary_updated := updated parsed_response;
         summary_missing := missing parsed_response |}.

Definition update_namespace_properties (namespace : IdentifierArg)
    (removals : option (gset string)) (updates : gmap string string)
  : M PropertiesUpdateSummary :=
  retry E (def_update_namespace_properties namespace removals updates).

End NamespaceOperations.

(** One setting of the namespace parameters, in the manner of [fixture]. *)
Module NamespaceFixture.

Fixpoint str_lists (items : list json) : option (list (list string)) :=
  match items with
  | [] => Some []
  | JArr names :: rest =>
      match Fixture.str_items names, str_lists rest with
      | Some n, Some ns => Some (n :: ns)
      | _, _ => None
      end
  | _ => None
  end.

Definition validate_ListNamespaceResponse (members : list (string * json))
  : Validated (list (list string)) :=
  match Fixture.lookup_member "namespaces" members with
  | Some (JArr items) =>
      match str_lists items with
      | Some namespaces => Valid namespaces
      | None => Invalid ["Input should be a valid string"]
      end
  | _ => Invalid Fixture.required
  end.

Definition validate_NamespaceResponse (members : list (string * json))
  : Validated NamespaceResponse :=
  match Fixture.lookup_member "namespace" members,
        Fixture.lookup_member "properties" members with
  | Some (JArr names), Some (JObj p) =>
      match Fixture.str_items names, Fixture.str_members p with
      | Some n, Some p' => Valid {| response_namespace := n; response_properties := p' |}
      | _, _ => Invalid ["Input should be a valid string"]
      end
  | _, _ => Invalid Fixture.required
  end.

Definition str_list_member (key : string) (members : list (string * json))
  : option (list string) :=
  match Fixture.lookup_member key members with
  | Some (JArr items) => Fixture.str_items items
  | _ => None
  end.

Definition validate_UpdateNamespacePropertiesResponse (members : list (string * json))
  : Validated UpdateNamespacePropertiesResponse :=
  match str_list_member "removed" members, str_list_member "updated" members,
        str_list_member "missing" members with
  | Some r, Some u, Some m => Valid {| removed := r; updated := u; missing := m |}
  | _, _, _ => Invalid Fixture.required
  end.

Definition format_without_arguments (template : string) : Outcome string :=
  if PyStr.contains "{"%char template || PyStr.contains "}"%char template
  then inl (Raise ValueError "unexpected '{' or '}' in format string")
  else inr template.

End NamespaceFixture.

Definition namespace_fixture : NamespaceExternals :=
  {| validate_ListNamespaceResponse := NamespaceFixture.validate_ListNamespaceResponse;
     validate_NamespaceResponse := NamespaceFixture.validate_NamespaceResponse;
     validate_UpdateNamespacePropertiesResponse :=
       NamespaceFixture.validate_UpdateNamespacePropertiesResponse;
     format_without_arguments := NamespaceFixture.format_without_arguments |}.

(** ** Vocabulary of the statements *)

(** The outcome is an exception of class [kind]. *)
Definition raises {A} (out : Outcome A) (kind : ErrorKind) : Prop :=
  exists msg, out = inl (Raise kind msg).

(** Between [w] and [w'] one request went out, and [r] was the answer. *)
Definition answered (E : Externals) (w w' : World) (r : Response) : Prop :=
  exists rq, wire w' = (wire w ++ [rq])%list /\ r = server E (wire w) rq.

(** The body is not JSON at all, or it is a JSON object: the two cases for
    which [_handle_non_200_response] reaches its [raise]. *)
Definition undecodable_or_object (E : Externals) (r : Response) : Prop :=
  match json_loads E (text r) with
  | None => True
  | Some (JObj _) => True
  | Some _ => False
  end.


(** The operation [op], written [def_op] under its decorator, raises [kind]
    whenever the one request it sends is answered by [r]. *)
Definition status_raises {A} (E : Externals) (def_op op : M A) (r : Response)
    (kind : ErrorKind) : Prop :=
  forall w out w',
    def_op w = (out, w') -> answered E w w' r ->
    raises out kind /\ op w = (out, w').

(** The world after [self.properties[TOKEN] = token]. *)
Definition with_token (token : string) (w : World) : World :=
  {| self := {| name := name (self w);
                properties := <[TOKEN := token]> (properties (self w));
                uri := uri (self w); _session := _session (self w) |};
     sessions := sessions w; wire := wire w |}.

(** The world after the [Authorization] header of [session] is set from a
    token that is not empty; an empty token leaves the headers alone. *)
Definition with_bearer (session : nat) (token : string) (w : World) : World :=
  if PyStr.truthy token then
    {| self := self w;
       sessions :=
         alter (fun ss => {| headers := CaseInsensitiveDict.setitem AUTHORIZATION_HEADER
                                          ("Bearer " +:+ token) (headers ss) |})
               session (sessions w);
       wire := wire w |}
  else w.

(** What follows the exchange of a credential in [_refresh_token]. *)
Definition after_exchange (session : nat) (exchange : Outcome string * World)
  : Outcome unit * World :=
  match exchange with
  | (inl e, w1) => (inl e, w1)
  | (inr token, w1) => (inr tt, with_bearer session token (with_token token w1))
  end.

(** [w1] has the requests of [w] and at most [n] more. *)
Definition sends_at_most (n : nat) (w w1 : World) : Prop :=
  exists more, wire w1 = (wire w ++ more)%list /\ (length more <= n)%nat.

(** The catalog object of [w1] is that of [w], but for the token property. *)
Definition same_catalog_but_token (w w1 : World) : Prop :=
  name (self w1) = name (self w) /\ uri (self w1) = uri (self w) /\
  _session (self w1) = _session (self w) /\
  forall key, key <> TOKEN -> properties (self w1) !! key = properties (self w) !! key.

(** Every run of [fn] relates the world before and the world after by [R]. *)
Definition keeps {A} (R : World -> World -> Prop) (fn : M A) : Prop :=
  forall w out w1, fn w = (out, w1) -> R w w1.

(** The catalog [c] with another base URI, and with another prefix. *)
Definition with_uri (u : string) (c : RestCatalog) : RestCatalog :=
  {| name := name c; properties := properties c; uri := u; _session := _session c |}.

Definition with_prefix (p : string) (c : RestCatalog) : RestCatalog :=
  {| name := name c; properties := <[PREFIX := p]> (properties c);
     uri := uri c; _session := _session c |}.

(** The header [h] of a new session, whatever the case of its letters, when
    no property names it: the four built-in headers, the bearer token if
    there is a token that is not empty, and otherwise what [requests] puts
    into a new session. *)
Definition expected_header (E : Externals) (token : option string) (h : string)
  : option string :=
  if decide (PyStr.lower h = PyStr.lower "X-Iceberg-Access-Delegation")
  then Some "vended-credentials"
  else if decide (PyStr.lower h = PyStr.lower "User-Agent")
  then Some ("PyIceberg/" +:+ version E)
  else if decide (PyStr.lower h = PyStr.lower "X-Client-Version")
  then Some ICEBERG_REST_SPEC_VERSION
  else if decide (PyStr.lower h = PyStr.lower "Content-type")
  then Some "application/json"
  else match token with
       | Some (String c t) =>
           if decide (PyStr.lower h = PyStr.lower AUTHORIZATION_HEADER)
           then Some (BEARER_PREFIX +:+ " " +:+ String c t)
           else CaseInsensitiveDict.get h (default_headers E)
       | _ => CaseInsensitiveDict.get h (default_headers E)
       end.

(** The effect of a function that at most sends one request. *)
Definition plain (w w1 : World) : Prop :=
  self w1 = self w /\ sessions w1 = sessions w /\ sends_at_most 1 w w1.

(** The run raised [e] and left the world as it was. *)
Definition refused {A} (run : Outcome A * World) (e : PyException) (w : World) : Prop :=
  run = (inl e, w).

(** The operation [op], written [def_op] under its decorator, returns
    [result] whenever the one request it sends is answered by [r]. *)
Definition answer_returns {A} (E : Externals) (def_op op : M A) (r : Response)
    (result : A) : Prop :=
  forall w out w',
    def_op w = (out, w') -> answered E w w' r ->
    out = inr result /\ op w = (out, w').

(** ** Worlds and services of the examples *)

Definition no_content : Response := {| status_code := 204; text := "" |}.

Definition orders : IdentifierArg := IdTuple ["sales"; "orders"].

Definition invalid_client : json :=
  JObj [ ("error", JStr "invalid_client");
         ("error_description", JStr "Credentials given were invalid");
         ("error_uri", JStr "https://catalog/errors") ].

Definition expired : Response := {| status_code := 419; text := "expired" |}.

Definition not_found : Response := {| status_code := 404; text := "gone" |}.

Definition token_document (token : string) : json :=
  JObj [ ("access_token", JStr token); ("token_type", JStr "bearer") ].

Definition token_response (token : string) : Response :=
  {| status_code := 200; text := Fixture.dumps (token_document token) |}.

(** A catalog that was given both a token and a credential. *)
Definition stale_world : World :=
  catalog_world "prod" {[ TOKEN := "stale"; CREDENTIAL := "id:secret" ]}
    {[ AUTHORIZATION_HEADER := "Bearer stale" ]}.


Definition table_document : json :=
  JObj [ ("metadata-location", JStr "s3://warehouse/sales/orders/metadata/v1.json");
         ("metadata", JObj [ ("format-version", JNum 2) ]) ].

Definition table_response : Response :=
  {| status_code := 200; text := Fixture.dumps table_document |}.

(** The catalog object before [__init__] has run. *)
Definition blank_world : World :=
  {| self := {| name := ""; properties := ∅; uri := ""; _session := None |};
     sessions := []; wire := [] |}.

Definition config_document (defaults overrides : list (string * json)) : json :=
  JObj [ ("defaults", JObj defaults); ("overrides", JObj overrides) ].

Definition config_response (defaults overrides : list (string * json)) : Response :=
  {| status_code := 200; text := Fixture.dumps (config_document defaults overrides) |}.

(** The catalog object when [__init__] calls [_fetch_config]. *)
Definition bootstrap_world (caller : gmap string string) : World :=
  {| self := {| name := "prod"; properties := caller;
                uri := "https://catalog"; _session := None |};
     sessions := []; wire := [] |}.

(** A service whose tokens expire at once: every table request is answered
    419 and every token request with a token, until the last request. *)
Definition expiring : Externals :=
  fixture [token_document "short-lived"]
    [ expired; token_response "short-lived"; expired; token_response "short-lived";
      expired; token_response "short-lived"; no_content ] no_content.

Definition credential_world : World :=
  catalog_world "prod" {[ CREDENTIAL := "id:secret" ]} ∅.

(** A session whose bearer header was set by hand, in small letters. *)
Definition lowercase_world : World :=
  catalog_world "prod" {[ CREDENTIAL := "id:secret" ]}
    {[ "authorization" := "Bearer stale"; "Accept" := "*/*" ]}.

Definition regions_document : json :=
  JObj [ ("namespaces", JArr [ JArr [JStr "eu"]; JArr [JStr "us"] ]) ].

Definition regions_response : Response :=
  {| status_code := 200; text := Fixture.dumps regions_document |}.

Definition tables_document : json :=
  JObj [ ("identifiers",
          JArr [ JObj [ ("namespace", JArr [JStr "sales"]); ("name", JStr "orders") ] ]) ].

Definition tables_response : Response :=
  {| status_code := 200; text := Fixture.dumps tables_document |}.

(** A commit to the table [sales.orders]. *)
Definition orders_commit : CommitTableRequest :=
  {| request_identifier := {| namespace_root := ["sales"]; ti_name := "orders" |};
     request_json := "{}" |}.

(** The arguments of a [create_table] call that gives a schema only. *)
Definition schema_only : CreateTableArgs :=
  {| arg_schema := JObj [ ("type", JStr "struct") ]; arg_location := None;
     arg_partition_spec := JNull; arg_sort_order := JNull; arg_properties := ∅ |}.


(** * Properties *)

(** ** Strings *)

Section SplitJoin.

Variable sep : ascii.

Lemma split_nonempty (s : string) : PyStr.split sep s <> [].
Proof.
  destruct s as [|c rest]; simpl; [discriminate|].
  destruct (Ascii.eqb c sep); [discriminate|].
  destruct (PyStr.split sep rest); discriminate.
Qed.

Lemma split_without_sep (s : string) :
  PyStr.contains sep s = false -> PyStr.split sep s = [s].
Proof.
  induction s as [|c rest IH]; simpl; [reflexivity|].
  intros H. apply orb_false_iff in H as [Hc Hrest].
  rewrite Hc, (IH Hrest). reflexivity.
Qed.

Lemma split_at_first_sep (before rest : string) :
  PyStr.contains sep before = false ->
  PyStr.split sep (before +:+ String sep rest) = before :: PyStr.split sep rest.
Proof.
  induction before as [|c before IH]; simpl.
  - intros _. rewrite Ascii.eqb_refl. reflexivity.
  - intros H. apply orb_false_iff in H as [Hc Hbefore].
    rewrite Hc, (IH Hbefore). reflexivity.
Qed.


(** A string with a separator splits into at least two pieces. *)
Lemma split_with_sep (s : string) :
  PyStr.contains sep s = true -> (2 <= length (PyStr.split sep s))%nat.
Proof.
  induction s as [|c rest IH]; simpl; [discriminate|].
  destruct (Ascii.eqb c sep) eqn:Hc; simpl.
  - intros _. pose proof (split_nonempty rest).
    destruct (PyStr.split sep rest); [congruence | simpl; lia].
  - intros H. specialize (IH H).
    destruct (PyStr.split sep rest); simpl in *; lia.
Qed.

End SplitJoin.

Lemma removelast_length {A} (l : list A) :
  length (removelast l) = Nat.pred (length l).
Proof.
  induction l as [|x l IH]; [reflexivity|].
  destruct l as [|y l]; [reflexivity|].
  change (removelast (x :: y :: l)) with (x :: removelast (y :: l)).
  simpl length in *. rewrite IH. reflexivity.
Qed.

(** ** Identifier codec *)

Lemma validated_tuple_ok (E : Externals) (identifier : IdentifierArg) :
  (2 <= length (identifier_to_tuple E identifier))%nat ->
  _identifier_to_validated_tuple E identifier = inr (identifier_to_tuple E identifier).
Proof.
  intros Hlen. unfold _identifier_to_validated_tuple.
  destruct (Nat.leb_spec (length (identifier_to_tuple E identifier)) 1); [lia | reflexivity].
Qed.






(** ** Credentials *)

Lemma split_credential_without_colon (credential : string) :
  PyStr.contains SEMICOLON credential = false ->
  split_credential credential = inr (None, credential).
Proof. intros H. unfold split_credential. rewrite H. reflexivity. Qed.

Lemma contains_app (c : ascii) (a b : string) :
  PyStr.contains c (a +:+ b) = PyStr.contains c a || PyStr.contains c b.
Proof.
  induction a as [|x a IH]; simpl; [reflexivity|].
  rewrite IH. apply orb_assoc.
Qed.

Lemma contains_colon_app (a b : string) :
  PyStr.contains SEMICOLON (a +:+ String SEMICOLON b) = true.
Proof.
  rewrite contains_app. change (PyStr.contains SEMICOLON (String SEMICOLON b)) with true.
  apply orb_true_r.
Qed.

Lemma split_credential_one_colon (client_id client_secret : string) :
  PyStr.contains SEMICOLON client_id = false ->
  PyStr.contains SEMICOLON client_secret = false ->
  split_credential (client_id +:+ String SEMICOLON client_secret)
    = inr (Some client_id, client_secret).
Proof.
  intros Hid Hsecret. unfold split_credential.
  rewrite contains_colon_app, split_at_first_sep, split_without_sep by assumption.
  reflexivity.
Qed.

(** A secret that itself contains a colon cannot be unpacked into two names. *)
Lemma split_credential_more_colons (client_id client_secret : string) :
  PyStr.contains SEMICOLON client_id = false ->
  PyStr.contains SEMICOLON client_secret = true ->
  split_credential (client_id +:+ String SEMICOLON client_secret)
    = inl (Raise ValueError "too many values to unpack (expected 2)").
Proof.
  intros Hid Hsecret. unfold split_credential.
  rewrite contains_colon_app, split_at_first_sep by assumption.
  pose proof (split_with_sep SEMICOLON client_secret Hsecret) as Hlen.
  destruct (PyStr.split SEMICOLON client_secret) as [|a [|b rest]]; simpl in Hlen; try lia.
  reflexivity.
Qed.

(** C9, where the code departs from it.  The credential [id:se:cret] has
    the client id [id] and the secret [se:cret] when split at its first
    colon; [_fetch_access_token] splits at every colon and fails to unpack
    the three pieces, before any request is sent. *)
Theorem credential_with_colon_in_secret_raises (E : Externals) (session : nat) (w : World) :
  _fetch_access_token E session "id:se:cret" w
    = (inl (Raise ValueError "too many values to unpack (expected 2)"), w).
Proof. reflexivity. Qed.

(** ** The mapping of failures onto exception classes *)

Section Mapper.

Context (E : Externals).

Lemma raise_for_status_error (r : Response) :
  400 <= status_code r < 600 -> raise_for_status r = Some {| response := Some r |}.
Proof.
  intros [Hlo Hhi]. unfold raise_for_status.
  destruct (Z.leb_spec 400 (status_code r)); [|lia].
  destruct (Z.ltb_spec (status_code r) 600); [reflexivity | lia].
Qed.

Lemma handle_undecodable (r : Response) (handler : gmap Z ErrorKind) :
  json_loads E (text r) = None ->
  _handle_non_200_response E {| response := Some r |} handler
    = Raise (exception_class handler (status_code r))
            ("RESTError " +:+ pretty (status_code r)
               +:+ ": Could not decode json payload: " +:+ text r).
Proof. intros H. unfold _handle_non_200_response. simpl. rewrite H. reflexivity. Qed.

Lemma handle_invalid (r : Response) (handler : gmap Z ErrorKind)
    (members : list (string * json)) :
  json_loads E (text r) = Some (JObj members) ->
  (if decide (exception_class handler (status_code r) = OAuthError)
   then exists errs, validate_OAuthErrorResponse E members = Invalid errs
   else exists errs, validate_ErrorResponse E members = Invalid errs) ->
  exists errs,
    _handle_non_200_response E {| response := Some r |} handler
      = Raise (exception_class handler (status_code r))
              ("RESTError " +:+ pretty (status_code r)
                 +:+ ": Received unexpected JSON Payload: " +:+ text r
                 +:+ ", errors: " +:+ PyStr.join ", " errs).
Proof.
  intros Hjson Hinvalid. unfold _handle_non_200_response. simpl. rewrite Hjson.
  destruct (decide (exception_class handler (status_code r) = OAuthError));
    destruct Hinvalid as [errs Herrs]; simpl; rewrite Herrs; eauto.
Qed.

Lemma handle_not_a_mapping (r : Response) (handler : gmap Z ErrorKind) (value : json) :
  json_loads E (text r) = Some value ->
  (forall members, value <> JObj members) ->
  exc_kind (_handle_non_200_response E {| response := Some r |} handler) = TypeError.
Proof.
  intros Hjson Hvalue. unfold _handle_non_200_response. simpl. rewrite Hjson.
  destruct value; try (destruct (decide _); reflexivity).
  exfalso. eapply Hvalue. reflexivity.
Qed.

Lemma handle_kind (r : Response) (handler : gmap Z ErrorKind) :
  undecodable_or_object E r ->
  exc_kind (_handle_non_200_response E {| response := Some r |} handler)
    = exception_class handler (status_code r).
Proof.
  unfold undecodable_or_object, _handle_non_200_response. simpl.
  destruct (json_loads E (text r)) as [value|]; [|reflexivity].
  destruct value; try contradiction. intros _.
  destruct (decide _); simpl.
  - destruct (validate_OAuthErrorResponse E members); reflexivity.
  - destruct (validate_ErrorResponse E members); reflexivity.
Qed.

End Mapper.

(** ** The retry decorator *)

Section Retry.

Context (E : Externals) {A : Type}.

(** The two attempts of [retry], written out; the fuel of [retrying] is
    never used up. *)
Lemma retry_unfold (fn : M A) (w : World) :
  retry E fn w =
    match fn w with
    | (inr result, w1) => (inr result, w1)
    | (inl e, w1) =>
        if bool_decide (exc_kind e = AuthorizationExpiredError) then
          match _retry_hook E w1 with
          | (inl e', w2) => (inl e', w2)
          | (inr _, w2) => fn w2
          end
        else (inl e, w1)
    end.
Proof.
  unfold retry. simpl. unfold retry_if_exception_type.
  destruct (fn w) as [[e|result] w1]; [|reflexivity].
  destruct (bool_decide (exc_kind e = AuthorizationExpiredError)); simpl; [|reflexivity].
  destruct (_retry_hook E w1) as [[e'|[]] w2]; [reflexivity|].
  destruct (fn w2) as [[e2|result2] w3]; [|reflexivity].
  destruct (bool_decide (exc_kind e2 = AuthorizationExpiredError)); reflexivity.
Qed.

Lemma retry_returns (fn : M A) (w w' : World) (result : A) :
  fn w = (inr result, w') -> retry E fn w = (inr result, w').
Proof. intros H. rewrite retry_unfold, H. reflexivity. Qed.

Lemma retry_other_error (fn : M A) (w w' : World) (e : PyException) :
  fn w = (inl e, w') -> exc_kind e <> AuthorizationExpiredError ->
  retry E fn w = (inl e, w').
Proof.
  intros H Hkind. rewrite retry_unfold, H.
  rewrite bool_decide_eq_false_2 by exact Hkind. reflexivity.
Qed.

Lemma retry_refresh_fails (fn : M A) (w w1 w2 : World) (e e' : PyException) :
  fn w = (inl e, w1) -> exc_kind e = AuthorizationExpiredError ->
  _retry_hook E w1 = (inl e', w2) ->
  retry E fn w = (inl e', w2).
Proof.
  intros H Hkind Hhook. rewrite retry_unfold, H.
  rewrite bool_decide_eq_true_2 by exact Hkind. rewrite Hhook. reflexivity.
Qed.

Lemma retry_second_attempt (fn : M A) (w w1 w2 : World) (e : PyException) :
  fn w = (inl e, w1) -> exc_kind e = AuthorizationExpiredError ->
  _retry_hook E w1 = (inr tt, w2) ->
  retry E fn w = fn w2.
Proof.
  intros H Hkind Hhook. rewrite retry_unfold, H.
  rewrite bool_decide_eq_true_2 by exact Hkind. rewrite Hhook. reflexivity.
Qed.

End Retry.

(** ** Operations and the response they get *)

#[local] Arguments _split_identifier_for_path : simpl never.
#[local] Arguments _split_identifier_for_json : simpl never.
#[local] Arguments _check_valid_namespace_identifier : simpl never.
#[local] Arguments _handle_non_200_response : simpl never.
#[local] Arguments model_of : simpl never.
#[local] Arguments raise_for_status : simpl never.
#[local] Arguments url : simpl never.
#[local] Arguments split_credential : simpl never.
#[local] Arguments _fetch_access_token : simpl never.
#[local] Arguments _refresh_token : simpl never.
#[local] Arguments retry : simpl never.

Ltac run_step :=
  unfold bind, lift, ret, raise, get_self, the_session, send, check_status,
    _response_to_table in *; simpl in *.

Ltac by_wire :=
  match goal with
  | H : wire ?w = (wire ?w ++ [_])%list |- _ =>
      exfalso; apply (f_equal (@length _)) in H; rewrite length_app in H; simpl in H; lia
  | H : (wire ?w ++ [?a])%list = (wire ?w ++ [?b])%list |- _ =>
      apply app_inv_head in H; inversion H; subst; clear H
  end.

Section Answered.

Context (E : Externals).

Lemma load_table_answered (identifier : IdentifierArg) (w w' : World)
    (out : Outcome Table) (r : Response) :
  def_load_table E identifier w = (out, w') -> answered E w w' r ->
  forall exc, raise_for_status r = Some exc ->
  out = inl (_handle_non_200_response E exc {[ 404 := NoSuchTableError ]}).
Proof.
  intros Hrun [rq [Hwire Hr]] exc Hstatus. unfold def_load_table in Hrun. run_step.
  destruct (_session (self w)); [|inversion Hrun; subst; by_wire].
  destruct (_split_identifier_for_path E _) as [e|parts];
    [inversion Hrun; subst; by_wire|].
  match type of Hrun with context [server E (wire w) ?q] => set (rq' := q) in * end.
  destruct (raise_for_status (server E (wire w) rq')) as [exc'|] eqn:Hstatus'.
  - inversion Hrun; subst. simpl in Hwire. by_wire. congruence.
  - destruct (model_of E _ _ _); inversion Hrun; subst; simpl in Hwire; by_wire; congruence.
Qed.

Lemma list_tables_answered (identifier : IdentifierArg) (w w' : World)
    (out : Outcome (list (list string))) (r : Response) :
  def_list_tables E identifier w = (out, w') -> answered E w w' r ->
  forall exc, raise_for_status r = Some exc ->
  out = inl (_handle_non_200_response E exc {[ 404 := NoSuchNamespaceError ]}).
Proof.
  intros Hrun [rq [Hwire Hr]] exc Hstatus. unfold def_list_tables in Hrun. run_step.
  destruct (_check_valid_namespace_identifier E _) as [e|namespace_tuple];
    [inversion Hrun; subst; by_wire|].
  destruct (_session (self w)); [|inversion Hrun; subst; by_wire].
  match type of Hrun with context [server E (wire w) ?q] => set (rq' := q) in * end.
  destruct (raise_for_status (server E (wire w) rq')) as [exc'|] eqn:Hstatus'.
  - inversion Hrun; subst. simpl in Hwire. by_wire. congruence.
  - destruct (model_of E _ _ _); inversion Hrun; subst; simpl in Hwire; by_wire; congruence.
Qed.

Lemma create_table_answered (identifier : IdentifierArg) (args : CreateTableArgs)
    (w w' : World) (out : Outcome Table) (r : Response) :
  def_create_table E identifier args w = (out, w') -> answered E w w' r ->
  forall exc, raise_for_status r = Some exc ->
  out = inl (_handle_non_200_response E exc {[ 409 := TableAlreadyExistsError ]}).
Proof.
  intros Hrun [rq [Hwire Hr]] exc Hstatus. unfold def_create_table in Hrun. run_step.
  destruct (assign_fresh_ids E args) as [e|fresh]; [inversion Hrun; subst; by_wire|].
  destruct (_split_identifier_for_path E _) as [e|parts];
    [inversion Hrun; subst; by_wire|].
  destruct (_session (self w)); [|inversion Hrun; subst; by_wire].
  match type of Hrun with context [server E (wire w) ?q] => set (rq' := q) in * end.
  destruct (raise_for_status (server E (wire w) rq')) as [exc'|] eqn:Hstatus'.
  - inversion Hrun; subst. simpl in Hwire. by_wire. congruence.
  - destruct (model_of E _ _ _); inversion Hrun; subst; simpl in Hwire; by_wire; congruence.
Qed.

Lemma commit_table_answered (table_request : CommitTableRequest) (w w' : World)
    (out : Outcome json) (r : Response) :
  def__commit_table E table_request w = (out, w') -> answered E w w' r ->
  forall exc, raise_for_status r = Some exc ->
  out = inl (_handle_non_200_response E exc
               {[ 409 := CommitFailedException;
                  500 := CommitStateUnknownException;
                  502 := CommitStateUnknownException;
                  504 := CommitStateUnknownException ]}).
Proof.
  intros Hrun [rq [Hwire Hr]] exc Hstatus. unfold def__commit_table in Hrun. run_step.
  destruct (_session (self w)); [|inversion Hrun; subst; by_wire].
  match type of Hrun with context [server E (wire w) ?q] => set (rq' := q) in * end.
  destruct (raise_for_status (server E (wire w) rq')) as [exc'|] eqn:Hstatus'.
  - inversion Hrun; subst. simpl in Hwire. by_wire. congruence.
  - inversion Hrun; subst; simpl in Hwire; by_wire; congruence.
Qed.

Lemma fetch_access_token_answered (session : nat) (credential : string) (w w' : World)
    (out : Outcome string) (r : Response) :
  _fetch_access_token E session credential w = (out, w') -> answered E w w' r ->
  forall exc, raise_for_status r = Some exc ->
  out = inl (_handle_non_200_response E exc {[ 400 := OAuthError; 401 := OAuthError ]}).
Proof.
  intros Hrun [rq [Hwire Hr]] exc Hstatus. unfold _fetch_access_token in Hrun.
  unfold session_headers in Hrun. run_step.
  destruct (split_credential credential) as [e|[client_id client_secret]];
    [inversion Hrun; subst; by_wire|].
  match type of Hrun with context [server E (wire w) ?q] => set (rq' := q) in * end.
  destruct (raise_for_status (server E (wire w) rq')) as [exc'|] eqn:Hstatus'.
  - inversion Hrun; subst. simpl in Hwire. by_wire. congruence.
  - destruct (model_of E _ _ _); inversion Hrun; subst; simpl in Hwire; by_wire; congruence.
Qed.

End Answered.

Section StatusMapping.

Context (E : Externals) (r : Response).
Hypothesis body : undecodable_or_object E r.

Lemma mapped {A} (def_op : M A) (handler : gmap Z ErrorKind) (kind : ErrorKind) :
  (forall w out w', def_op w = (out, w') -> answered E w w' r ->
     forall exc, raise_for_status r = Some exc ->
     out = inl (_handle_non_200_response E exc handler)) ->
  400 <= status_code r < 600 ->
  exception_class handler (status_code r) = kind ->
  kind <> AuthorizationExpiredError ->
  status_raises E def_op (retry E def_op) r kind.
Proof.
  intros Hanswered Hstatus Hclass Hkind w out w' Hrun Hr.
  pose proof (Hanswered w out w' Hrun Hr _ (raise_for_status_error r Hstatus)) as Hout.
  pose proof (handle_kind E r handler body) as Hk.
  destruct (_handle_non_200_response E {| response := Some r |} handler) as [k msg] eqn:He.
  simpl in Hk. subst out. split.
  - exists msg. congruence.
  - apply retry_other_error; [exact Hrun | simpl; congruence].
Qed.

Lemma default_class (handler : gmap Z ErrorKind) :
  handler !! status_code r = None ->
  exc_kind (_handle_non_200_response E {| response := Some r |} handler)
    = exception_class ∅ (status_code r).
Proof.
  intros Hnone. rewrite handle_kind by exact body.
  unfold exception_class. rewrite Hnone, lookup_empty. reflexivity.
Qed.

End StatusMapping.

(** The statuses and their classes, for a body that is a JSON object or no
    JSON at all: a 404 makes [load_table] raise [NoSuchTableError] and
    [list_tables] raise [NoSuchNamespaceError], a 409 makes [create_table]
    raise [TableAlreadyExistsError] and [_commit_table] raise
    [CommitFailedException], a 500, 502 or 504 makes [_commit_table] raise
    [CommitStateUnknownException]; a status the handler of the operation does
    not list is mapped by the default table. *)
Theorem status_to_error_kind (E : Externals) (r : Response) :
  undecodable_or_object E r ->
  (forall identifier, status_code r = 404 ->
     status_raises E (def_load_table E identifier) (load_table E identifier)
       r NoSuchTableError) /\
  (forall namespace, status_code r = 404 ->
     status_raises E (def_list_tables E namespace) (list_tables E namespace)
       r NoSuchNamespaceError) /\
  (forall identifier args, status_code r = 409 ->
     status_raises E (def_create_table E identifier args) (create_table E identifier args)
       r TableAlreadyExistsError) /\
  (forall table_request, status_code r = 409 ->
     status_raises E (def__commit_table E table_request) (_commit_table E table_request)
       r CommitFailedException) /\
  (forall table_request,
     status_code r = 500 \/ status_code r = 502 \/ status_code r = 504 ->
     status_raises E (def__commit_table E table_request) (_commit_table E table_request)
       r CommitStateUnknownException) /\
  (forall handler : gmap Z ErrorKind, handler !! status_code r = None ->
     let kind := exc_kind (_handle_non_200_response E {| response := Some r |} handler) in
     (status_code r = 400 -> kind = BadRequestError) /\
     (status_code r = 401 -> kind = UnauthorizedError) /\
     (status_code r = 403 -> kind = ForbiddenError) /\
     (status_code r = 419 -> kind = AuthorizationExpiredError) /\
     (status_code r = 422 -> kind = RESTError) /\
     (status_code r = 501 -> kind = NotImplementedError) /\
     (status_code r = 503 -> kind = ServiceUnavailableError) /\
     (500 <= status_code r < 600 -> status_code r <> 501 -> status_code r <> 503 ->
      kind = ServerError) /\
     (status_code r < 500 \/ 600 <= status_code r ->
      status_code r <> 400 -> status_code r <> 401 -> status_code r <> 403 ->
      status_code r <> 419 -> status_code r <> 422 ->
      kind = RESTError)).
Proof.
  intros Hbody. repeat apply conj.
  - intros identifier Hs. eapply mapped; eauto using load_table_answered; try lia; try discriminate.
    rewrite Hs. reflexivity.
  - intros namespace Hs. eapply mapped; eauto using list_tables_answered; try lia; try discriminate.
    rewrite Hs. reflexivity.
  - intros identifier args Hs. eapply mapped; eauto using create_table_answered; try lia; try discriminate.
    rewrite Hs. reflexivity.
  - intros table_request Hs. eapply mapped; eauto using commit_table_answered; try lia; try discriminate.
    rewrite Hs. reflexivity.
  - intros table_request Hs. eapply mapped; eauto using commit_table_answered; try lia; try discriminate.
    destruct Hs as [Hs|[Hs|Hs]]; rewrite Hs; reflexivity.
  - intros handler Hnone kind. subst kind. rewrite (default_class E r Hbody handler Hnone).
    unfold exception_class. rewrite lookup_empty.
    repeat apply conj; intros; repeat (case_decide; try lia; try reflexivity).
    + destruct (Z.leb_spec 500 (status_code r)); [|lia].
      destruct (Z.ltb_spec (status_code r) 600); [reflexivity | lia].
    + destruct (Z.leb_spec 500 (status_code r));
        destruct (Z.ltb_spec (status_code r) 600); try reflexivity; lia.
Qed.

Lemma status_to_error_kind_witness :
  let w := catalog_world "prod" ∅ ∅ in
  raises (load_table (fixture [] [not_found] no_content) orders w).1 NoSuchTableError /\
  raises (_commit_table (fixture [] [ {| status_code := 409; text := "conflict" |} ]
                           no_content) orders_commit w).1
         CommitFailedException /\
  raises (_commit_table (fixture [] [ {| status_code := 502; text := "bad gateway" |} ]
                           no_content) orders_commit w).1
         CommitStateUnknownException.
Proof.
  intros w. repeat apply conj.
  - pose proof (proj1 (status_to_error_kind (fixture [] [not_found] no_content) not_found I)
                  orders eq_refl w _ _ (surjective_pairing _)) as H.
    destruct H as [Hraises Hrun].
    + eexists. split; reflexivity.
    + rewrite Hrun. exact Hraises.
  - pose proof (proj1 (proj2 (proj2 (proj2
                  (status_to_error_kind
                     (fixture [] [ {| status_code := 409; text := "conflict" |} ] no_content)
                     {| status_code := 409; text := "conflict" |} I))))
                  orders_commit eq_refl w _ _ (surjective_pairing _)) as H.
    destruct H as [Hraises Hrun].
    + eexists. split; reflexivity.
    + rewrite Hrun. exact Hraises.
  - pose proof (proj1 (proj2 (proj2 (proj2 (proj2
                  (status_to_error_kind
                     (fixture [] [ {| status_code := 502; text := "bad gateway" |} ]
                        no_content)
                     {| status_code := 502; text := "bad gateway" |} I)))))
                  orders_commit (or_intror (or_introl eq_refl)) w _ _
                  (surjective_pairing _)) as H.
    destruct H as [Hraises Hrun].
    + eexists. split; reflexivity.
    + rewrite Hrun. exact Hraises.
Defined.

(** ** The token endpoint *)

Lemma append_assoc (a b c : string) : (a +:+ b) +:+ c = a +:+ b +:+ c.
Proof.
  induction a as [|x a IH]; [reflexivity|].
  change (String x ((a +:+ b) +:+ c) = String x (a +:+ b +:+ c)). f_equal. exact IH.
Qed.

Lemma append_nil_r (a : string) : a +:+ "" = a.
Proof.
  induction a as [|x a IH]; [reflexivity|].
  change (String x (a +:+ "") = String x a). f_equal. exact IH.
Qed.




(** ** Bodies that cannot be parsed *)

Lemma embeds_middle (before t after : string) : PyStr.embeds (before +:+ t +:+ after) t.
Proof. exists before, after. reflexivity. Qed.

Lemma embeds_prefixed (before s t : string) : PyStr.embeds s t -> PyStr.embeds (before +:+ s) t.
Proof.
  intros [b [a ->]]. exists (before +:+ b), a. rewrite append_assoc. reflexivity.
Qed.

(** Malformed JSON keeps the class chosen from the status, and the message
    carries the status code and the body as received. *)
Lemma undecodable_body_keeps_class (E : Externals) (r : Response)
    (handler : gmap Z ErrorKind) :
  json_loads E (text r) = None ->
  let e := _handle_non_200_response E {| response := Some r |} handler in
  exc_kind e = exception_class handler (status_code r) /\
  PyStr.embeds (exc_msg e) (pretty (status_code r)) /\
  PyStr.embeds (exc_msg e) (text r).
Proof.
  intros Hjson e. subst e. rewrite handle_undecodable by exact Hjson. simpl.
  split; [reflexivity|]. split.
  - apply embeds_middle.
  - do 3 apply embeds_prefixed. exists "", "". rewrite append_nil_r. reflexivity.
Qed.

(** A JSON object that is not of the expected shape does the same. *)
Lemma invalid_body_keeps_class (E : Externals) (r : Response)
    (handler : gmap Z ErrorKind) (members : list (string * json)) :
  json_loads E (text r) = Some (JObj members) ->
  (if decide (exception_class handler (status_code r) = OAuthError)
   then exists errs, validate_OAuthErrorResponse E members = Invalid errs
   else exists errs, validate_ErrorResponse E members = Invalid errs) ->
  let e := _handle_non_200_response E {| response := Some r |} handler in
  exc_kind e = exception_class handler (status_code r) /\
  PyStr.embeds (exc_msg e) (pretty (status_code r)) /\
  PyStr.embeds (exc_msg e) (text r).
Proof.
  intros Hjson Hinvalid e. subst e.
  destruct (handle_invalid E r handler members Hjson Hinvalid) as [errs ->]. simpl.
  split; [reflexivity|]. split.
  - apply embeds_middle.
  - do 3 apply embeds_prefixed. apply (embeds_middle "").
Qed.

(** C5, where the code departs from it.  A 404 answer to [load_table] whose
    body is the JSON array [[]] has none of the fields of the error shape;
    the class chosen from the status is [NoSuchTableError], but unpacking
    the array raises [TypeError], which neither [except] clause catches. *)
Theorem json_array_body_raises_type_error :
  let E := fixture [JArr []] [ {| status_code := 404; text := "[]" |} ] no_content in
  exception_class {[ 404 := NoSuchTableError ]} 404 = NoSuchTableError /\
  raises (load_table E orders (catalog_world "prod" ∅ ∅)).1 TypeError.
Proof. split; [reflexivity|]. eexists. reflexivity. Qed.

(** C2, where the code departs from it.  A 409 answer to [_commit_table]
    whose body is the JSON value [null]: the handler of [_commit_table] lists
    409 as [CommitFailedException], but [null] is no mapping, unpacking it
    raises [TypeError], which neither [except] clause catches, and
    [_commit_table] raises [TypeError].  A 404 answer to [list_tables] with
    that body ends in the same way, and so does a 403, which no handler
    lists, to [create_table]. *)
Theorem null_body_raises_type_error :
  let answer status := fixture [JNull] [ {| status_code := status; text := "null" |} ]
                         no_content in
  let w := catalog_world "prod" ∅ ∅ in
  exception_class {[ 409 := CommitFailedException;
                     500 := CommitStateUnknownException;
                     502 := CommitStateUnknownException;
                     504 := CommitStateUnknownException ]} 409 = CommitFailedException /\
  raises (_commit_table (answer 409) orders_commit w).1 TypeError /\
  exception_class {[ 404 := NoSuchNamespaceError ]} 404 = NoSuchNamespaceError /\
  raises (list_tables (answer 404) (IdTuple ["sales"]) w).1 TypeError /\
  exception_class {[ 409 := TableAlreadyExistsError ]} 403 = ForbiddenError /\
  raises (create_table (answer 403) orders schema_only w).1 TypeError.
Proof. repeat split; try reflexivity; eexists; reflexivity. Qed.


(** ** Attempts under the decorator *)

(** C1, where the code departs from it.  [drop_table] gives up after two
    419 answers.  [purge_table] is decorated as well and calls the decorated
    [drop_table]: after the same two 419 answers its own retry runs
    [drop_table] again, a third request goes out, and with a 204 answer to
    it [purge_table] returns instead of raising. *)
Theorem purge_table_makes_a_third_attempt :
  let E := fixture [] [expired; expired; no_content] no_content in
  let w := catalog_world "prod" ∅ ∅ in
  let dropped := drop_table E orders true w in
  let purged := purge_table E orders w in
  raises dropped.1 AuthorizationExpiredError /\ length (wire dropped.2) = 2%nat /\
  purged.1 = inr tt /\ length (wire purged.2) = 3%nat /\
  map rq_url (wire purged.2)
    = [ "https://catalog/v1/namespaces/sales/tables/orders?purgeRequested=True";
        "https://catalog/v1/namespaces/sales/tables/orders?purgeRequested=True";
        "https://catalog/v1/namespaces/sales/tables/orders?purgeRequested=True" ].
Proof. repeat split; try reflexivity. eexists. reflexivity. Qed.

(** [rename_table] nests the decorated [load_table] in the same way: when
    the load after a successful rename is answered 419 twice, the retry of
    [rename_table] posts the rename a second time and loads again. *)
Lemma rename_table_repeats_the_rename :
  let E := fixture [table_document]
             [no_content; expired; expired; no_content; table_response] no_content in
  let renamed := rename_table E orders (IdTuple ["sales"; "orders_v2"])
                   (catalog_world "prod" ∅ ∅) in
  (exists handle, renamed.1 = inr handle /\
                  identifier handle = ["prod"; "sales"; "orders_v2"]) /\
  map rq_method (wire renamed.2) = [POST; GET; GET; POST; GET].
Proof. split; [eexists; split|]; reflexivity. Qed.

(** ** Token resolution *)

Lemma world_eta (w : World) :
  {| self := {| name := name (self w); properties := properties (self w);
                uri := uri (self w); _session := _session (self w) |};
     sessions := sessions w; wire := wire w |} = w.
Proof. destruct w as [[? ? ? ?] ? ?]. reflexivity. Qed.

Lemma with_token_same (token : string) (w : World) :
  properties (self w) !! TOKEN = Some token -> with_token token w = w.
Proof.
  intros H. unfold with_token. rewrite insert_id by exact H. apply world_eta.
Qed.

Section TokenResolution.

Context (E : Externals).

Lemma refresh_with_initial_token (session : nat) (token : string) (w : World) :
  _refresh_token E (Some session) (Some token) w
    = (inr tt, with_bearer session token (with_token token w)).
Proof.
  unfold _refresh_token, set_properties, set_header, with_bearer, with_token. run_step.
  rewrite lookup_insert_eq. destruct (PyStr.truthy token); reflexivity.
Qed.

Lemma refresh_with_credential (session : nat) (credential : string) (w : World) :
  properties (self w) !! CREDENTIAL = Some credential ->
  _refresh_token E (Some session) None w
    = after_exchange session (_fetch_access_token E session credential w).
Proof.
  intros Hcredential.
  unfold _refresh_token, set_properties, set_header, after_exchange, with_bearer,
    with_token. run_step.
  rewrite Hcredential.
  destruct (_fetch_access_token E session credential w) as [[e|token] w1]; [reflexivity|].
  simpl. rewrite lookup_insert_eq. destruct (PyStr.truthy token); reflexivity.
Qed.

Lemma refresh_without_credential (session : nat) (w : World) :
  properties (self w) !! CREDENTIAL = None ->
  _refresh_token E (Some session) None w
    = match properties (self w) !! TOKEN with
      | Some token => (inr tt, with_bearer session token w)
      | None => (inr tt, w)
      end.
Proof.
  intros Hcredential. unfold _refresh_token, set_header, with_bearer. run_step.
  rewrite Hcredential. simpl.
  destruct (properties (self w) !! TOKEN) as [token|]; [|reflexivity].
  destruct (PyStr.truthy token); reflexivity.
Qed.

Lemma retry_hook_session (session : nat) (w : World) :
  _session (self w) = Some session ->
  _retry_hook E w = _refresh_token E (Some session) None w.
Proof.
  intros Hsession. unfold _retry_hook, _refresh_token. run_step.
  rewrite Hsession. reflexivity.
Qed.

End TokenResolution.

(** C4, as the code has it.  When a session is established,
    [_refresh_token] is given the token property: a token that is there is
    kept and nothing is exchanged, otherwise a credential that is there is
    exchanged at the token endpoint, otherwise the world is left as it is
    and no [Authorization] header is set.  When the retry hook refreshes
    the session, it is given no token: a credential that is there is
    exchanged whether or not a token property is set, otherwise the token
    property is used again, otherwise nothing happens. *)
Theorem token_resolution_order (E : Externals) (session : nat) (w : World) :
  let props := properties (self w) in
  let establish := _refresh_token E (Some session) (props !! TOKEN) w in
  (forall token, props !! TOKEN = Some token ->
     establish = (inr tt, with_bearer session token w)) /\
  (forall credential, props !! TOKEN = None -> props !! CREDENTIAL = Some credential ->
     establish = after_exchange session (_fetch_access_token E session credential w)) /\
  (props !! TOKEN = None -> props !! CREDENTIAL = None -> establish = (inr tt, w)) /\
  (_session (self w) = Some session ->
   (forall credential, props !! CREDENTIAL = Some credential ->
      _retry_hook E w
        = after_exchange session (_fetch_access_token E session credential w)) /\
   (forall token, props !! CREDENTIAL = None -> props !! TOKEN = Some token ->
      _retry_hook E w = (inr tt, with_bearer session token w)) /\
   (props !! CREDENTIAL = None -> props !! TOKEN = None -> _retry_hook E w = (inr tt, w))).
Proof.
  intros props establish. subst props establish. repeat apply conj.
  - intros token Htoken. rewrite Htoken, refresh_with_initial_token.
    rewrite with_token_same by exact Htoken. reflexivity.
  - intros credential Htoken Hcredential. rewrite Htoken.
    apply refresh_with_credential, Hcredential.
  - intros Htoken Hcredential. rewrite Htoken, refresh_without_credential by exact Hcredential.
    rewrite Htoken. reflexivity.
  - intros Hsession. rewrite (retry_hook_session E session) by exact Hsession.
    repeat apply conj.
    + intros credential Hcredential. apply refresh_with_credential, Hcredential.
    + intros token Hcredential Htoken.
      rewrite refresh_without_credential, Htoken by assumption. reflexivity.
    + intros Hcredential Htoken.
      rewrite refresh_without_credential, Htoken by assumption. reflexivity.
Qed.

Lemma token_resolution_order_witness :
  let E := fixture [token_document "fresh"] [token_response "fresh"] no_content in
  _refresh_token E (Some 0%nat) (Some "stale") stale_world
    = (inr tt, with_bearer 0 "stale" stale_world) /\
  _retry_hook E stale_world
    = after_exchange 0 (_fetch_access_token E 0 "id:secret" stale_world).
Proof.
  intros E. destruct (token_resolution_order E 0 stale_world) as (Htoken & _ & _ & Hhook).
  split.
  - apply (Htoken "stale"). reflexivity.
  - apply (Hhook eq_refl). reflexivity.
Defined.

(** C4 as stated fails for refreshing: with a token and a credential both
    supplied, the retry hook does not keep the supplied token; it exchanges
    the credential at the token endpoint and replaces the token property
    and the [Authorization] header by the new token. *)
Lemma refresh_replaces_supplied_token :
  let E := fixture [token_document "fresh"] [token_response "fresh"] no_content in
  let refreshed := _retry_hook E stale_world in
  properties (self stale_world) !! TOKEN = Some "stale" /\
  refreshed.1 = inr tt /\
  map rq_url (wire refreshed.2) = ["https://catalog/v1/oauth/tokens"] /\
  properties (self refreshed.2) !! TOKEN = Some "fresh" /\
  (sessions refreshed.2 !! 0%nat) ≫= (fun ss => headers ss !! AUTHORIZATION_HEADER)
    = Some "Bearer fresh".
Proof. repeat split; reflexivity. Qed.

(** ** What the methods leave untouched *)

Ltac crack H :=
  repeat (match type of H with
          | context [match ?x with _ => _ end] =>
              lazymatch x with
              | context [match _ with _ => _ end] => fail
              | _ => destruct x eqn:?
              end
          end; simpl in H).

Lemma with_bearer_self (session : nat) (token : string) (w : World) :
  self (with_bearer session token w) = self w.
Proof. unfold with_bearer. destruct (PyStr.truthy token); reflexivity. Qed.

Lemma with_bearer_wire (session : nat) (token : string) (w : World) :
  wire (with_bearer session token w) = wire w.
Proof. unfold with_bearer. destruct (PyStr.truthy token); reflexivity. Qed.

Section Frames.

Context (E : Externals).

Lemma fetch_access_token_self (session : nat) (credential : string) (w w1 : World)
    (out : Outcome string) :
  _fetch_access_token E session credential w = (out, w1) -> self w1 = self w.
Proof.
  unfold _fetch_access_token, session_headers. intros H. run_step. crack H.
  all: inversion H; subst; reflexivity.
Qed.

(** [_refresh_token] changes nothing of the catalog but the token property,
    which it sets to the token it is given, or to the one it gets for the
    credential. *)
Lemma refresh_token_self (session : nat) (initial_token : option string) (w w1 : World)
    (out : Outcome unit) :
  _refresh_token E (Some session) initial_token w = (out, w1) ->
  name (self w1) = name (self w) /\ uri (self w1) = uri (self w) /\
  _session (self w1) = _session (self w) /\
  (properties (self w1) = properties (self w) \/
   exists token,
     properties (self w1) = <[TOKEN := token]> (properties (self w)) /\
     (initial_token = Some token \/
      initial_token = None /\ is_Some (properties (self w) !! CREDENTIAL))).
Proof.
  destruct initial_token as [token|].
  - rewrite refresh_with_initial_token. intros H. inversion H; subst.
    rewrite with_bearer_self. simpl. repeat split. right. eauto.
  - destruct (properties (self w) !! CREDENTIAL) as [credential|] eqn:Hcredential.
    + rewrite (refresh_with_credential E session credential) by exact Hcredential.
      destruct (_fetch_access_token E session credential w) as [[e|token] w2] eqn:Hfetch;
        apply fetch_access_token_self in Hfetch; simpl; intros H; inversion H; subst.
      * rewrite Hfetch. tauto.
      * rewrite with_bearer_self. simpl. rewrite Hfetch. repeat split.
        right. exists token. split; [reflexivity|]. right. split; [reflexivity|].
        eauto.
    + rewrite refresh_without_credential by exact Hcredential.
      destruct (properties (self w) !! TOKEN); intros H; inversion H; subst;
        rewrite ?with_bearer_self; tauto.
Qed.




End Frames.

(** ** The identifier of a table handle *)

#[local] Arguments load_table : simpl never.
#[local] Arguments drop_table : simpl never.

Ltac run_op :=
  unfold bind, lift, ret, raise, get_self, the_session, send, check_status in *;
  simpl in *.

Section Handles.

Context (E : Externals).


#[local] Arguments _response_to_table : simpl never.






End Handles.




(** ** The configuration merge *)

#[local] Arguments _create_session : simpl never.

Section Bootstrap.

Context (E : Externals).

(** Creating a session leaves the properties as they are, except that a
    credential without a token gets its token. *)
Lemma create_session_properties (w w1 : World) (session : nat) :
  _create_session E w = (inr session, w1) ->
  let caller := properties (self w) in
  name (self w1) = name (self w) /\ uri (self w1) = uri (self w) /\
  match caller !! TOKEN, caller !! CREDENTIAL with
  | None, Some credential =>
      exists token s w2 w3,
        _fetch_access_token E s credential w2 = (inr token, w3) /\
        properties (self w1) = <[TOKEN := token]> caller
  | _, _ => properties (self w1) = caller
  end.
Proof.
  unfold _create_session, new_session. run_op.
  match goal with
  | |- context [_refresh_token E (Some ?s) ?t ?w0] =>
      destruct (_refresh_token E (Some s) t w0) as [[e|[]] w2] eqn:Hrefresh
  end; [discriminate|].
  intros H. inversion H; subst. simpl. clear H.
  pose proof (refresh_token_self E _ _ _ _ _ Hrefresh) as (Hname & Huri & _ & _).
  simpl in Hname, Huri. split; [exact Hname|]. split; [exact Huri|].
  destruct (properties (self w) !! TOKEN) as [token|] eqn:Htoken.
  - rewrite refresh_with_initial_token in Hrefresh. inversion Hrefresh; subst.
    rewrite with_bearer_self. simpl. apply insert_id, Htoken.
  - destruct (properties (self w) !! CREDENTIAL) as [credential|] eqn:Hcredential.
    + rewrite (refresh_with_credential E _ credential) in Hrefresh by exact Hcredential.
      match type of Hrefresh with
      | context [_fetch_access_token E ?s credential ?w0] =>
          destruct (_fetch_access_token E s credential w0) as [[e|token] w4] eqn:Hfetch
      end; simpl in Hrefresh; [discriminate|].
      inversion Hrefresh; subst. rewrite with_bearer_self. simpl.
      apply fetch_access_token_self in Hfetch as Hself. rewrite Hself. simpl.
      eauto 10.
    + rewrite refresh_without_credential in Hrefresh by exact Hcredential.
      simpl in Hrefresh. rewrite Htoken in Hrefresh.
      inversion Hrefresh; subst. reflexivity.
Qed.

End Bootstrap.

Lemma merged_lookup (defaults caller overrides : gmap string string) (key : string) :
  dict_update (dict_update defaults caller) overrides !! key
    = match overrides !! key with
      | Some value => Some value
      | None => match caller !! key with
                | Some value => Some value
                | None => defaults !! key
                end
      end.
Proof.
  unfold dict_update.
  destruct (overrides !! key) as [value|] eqn:Hoverride.
  - apply lookup_union_Some_l, Hoverride.
  - rewrite lookup_union_r by exact Hoverride.
    destruct (caller !! key) as [value|] eqn:Hcaller.
    + apply lookup_union_Some_l, Hcaller.
    + apply lookup_union_r, Hcaller.
Qed.

(** C3, as the code has it.  When [_fetch_config] returns, the properties
    are merged from the document the service sent: a key of the overrides
    has the override value; otherwise a key of the caller's properties has
    the caller's value; otherwise the token key has the token that the
    bootstrap session got for the caller's credential, if the caller gave
    one; every other key has the default value.  The [uri] of the merged
    properties becomes the base URI of the catalog. *)
Theorem config_merge_precedence (E : Externals) (w w' : World) :
  _fetch_config E w = (inr tt, w') ->
  exists (document : ConfigResponse) (earlier : list Request) (rq : Request),
    wire w' = (earlier ++ [rq])%list /\
    model_of E "ConfigResponse" (validate_ConfigResponse E) (server E earlier rq)
      = inr document /\
    let caller := properties (self w) in
    let merged := properties (self w') in
    (forall key value,
       overrides document !! key = Some value -> merged !! key = Some value) /\
    (forall key value,
       overrides document !! key = None -> caller !! key = Some value ->
       merged !! key = Some value) /\
    (forall key,
       overrides document !! key = None -> caller !! key = None ->
       key <> TOKEN \/ caller !! CREDENTIAL = None ->
       merged !! key = defaults document !! key) /\
    (forall credential,
       overrides document !! TOKEN = None -> caller !! TOKEN = None ->
       caller !! CREDENTIAL = Some credential ->
       exists token session w0 w1,
         _fetch_access_token E session credential w0 = (inr token, w1) /\
         merged !! TOKEN = Some token) /\
    merged !! URI = Some (uri (self w')).
Proof.
  unfold _fetch_config, set_properties, set_uri. run_op.
  destruct (_create_session E w) as [[e|session] w1] eqn:Hsession; [discriminate|].
  match goal with
  | |- context [server E (wire w1) ?q] => set (rq := q)
  end.
  destruct (raise_for_status (server E (wire w1) rq)); [discriminate|]. simpl.
  destruct (model_of E "ConfigResponse" (validate_ConfigResponse E)
              (server E (wire w1) rq)) as [e|document] eqn:Hdocument; [discriminate|].
  simpl.
  destruct (dict_update (dict_update (defaults document) (properties (self w1)))
              (overrides document) !! URI) as [u|] eqn:Huri; [|discriminate].
  simpl. intros H. inversion H; subst; clear H. simpl.
  exists document, (wire w1), rq. split; [reflexivity|]. split; [exact Hdocument|].
  apply create_session_properties in Hsession as (_ & _ & Hprops). simpl in Hprops.
  repeat apply conj.
  - intros key value Hoverride. rewrite merged_lookup, Hoverride. reflexivity.
  - intros key value Hoverride Hcaller. rewrite merged_lookup, Hoverride.
    destruct (properties (self w) !! TOKEN) as [token|] eqn:Htoken;
      [|destruct (properties (self w) !! CREDENTIAL) as [credential|]].
    + rewrite Hprops, Hcaller. reflexivity.
    + destruct Hprops as (token & _ & _ & _ & _ & ->).
      destruct (decide (key = TOKEN)) as [->|Hne]; [congruence|].
      rewrite lookup_insert_ne by congruence. rewrite Hcaller. reflexivity.
    + rewrite Hprops, Hcaller. reflexivity.
  - intros key Hoverride Hcaller Hside. rewrite merged_lookup, Hoverride.
    destruct (properties (self w) !! TOKEN) as [token|] eqn:Htoken;
      [|destruct (properties (self w) !! CREDENTIAL) as [credential|]].
    + rewrite Hprops, Hcaller. reflexivity.
    + destruct Hside as [Hne|Hnone]; [|discriminate].
      destruct Hprops as (token & _ & _ & _ & _ & ->).
      rewrite lookup_insert_ne by congruence. rewrite Hcaller. reflexivity.
    + rewrite Hprops, Hcaller. reflexivity.
  - intros credential Hoverride Htoken Hcredential.
    rewrite Htoken, Hcredential in Hprops.
    destruct Hprops as (token & s & w2 & w3 & Hfetch & ->).
    exists token, s, w2, w3. split; [exact Hfetch|].
    rewrite merged_lookup, Hoverride, lookup_insert_eq. reflexivity.
  - exact Huri.
Qed.

Lemma config_merge_precedence_witness :
  let document_defaults := [("a", JStr "1"); ("b", JStr "2")] in
  let document_overrides := [("a", JStr "5")] in
  let E := fixture [config_document document_defaults document_overrides]
             [config_response document_defaults document_overrides] no_content in
  let w := bootstrap_world {[ URI := "https://catalog"; "b" := "3"; "c" := "4" ]} in
  let w' := (_fetch_config E w).2 in
  exists (document : ConfigResponse) (earlier : list Request) (rq : Request),
    wire w' = (earlier ++ [rq])%list /\
    model_of E "ConfigResponse" (validate_ConfigResponse E) (server E earlier rq)
      = inr document /\
    let caller := properties (self w) in
    let merged := properties (self w') in
    (forall key value,
       overrides document !! key = Some value -> merged !! key = Some value) /\
    (forall key value,
       overrides document !! key = None -> caller !! key = Some value ->
       merged !! key = Some value) /\
    (forall key,
       overrides document !! key = None -> caller !! key = None ->
       key <> TOKEN \/ caller !! CREDENTIAL = None ->
       merged !! key = defaults document !! key) /\
    (forall credential,
       overrides document !! TOKEN = None -> caller !! TOKEN = None ->
       caller !! CREDENTIAL = Some credential ->
       exists token session w0 w1,
         _fetch_access_token E session credential w0 = (inr token, w1) /\
         merged !! TOKEN = Some token) /\
    merged !! URI = Some (uri (self w')).
Proof.
  intros document_defaults document_overrides E w w'.
  apply (config_merge_precedence E w w'). reflexivity.
Defined.

(** The example of the design document: defaults [{a:1, b:2}], caller
    properties [{b:3, c:4}] (and the [uri] a caller has to give), overrides
    [{a:5}]. *)
Lemma config_merge_example :
  let document_defaults := [("a", JStr "1"); ("b", JStr "2")] in
  let document_overrides := [("a", JStr "5")] in
  let E := fixture [config_document document_defaults document_overrides]
             [config_response document_defaults document_overrides] no_content in
  let w := bootstrap_world {[ URI := "https://catalog"; "b" := "3"; "c" := "4" ]} in
  (_fetch_config E w).1 = inr tt /\
  properties (self (_fetch_config E w).2)
    = {[ URI := "https://catalog"; "a" := "5"; "b" := "3"; "c" := "4" ]} /\
  uri (self (_fetch_config E w).2) = "https://catalog".
Proof. repeat split; vm_compute; reflexivity. Qed.

(** C3 as stated fails for the token key: the caller gives a credential and
    no token, the overrides have no token, the defaults have one, and the
    constructed catalog has the token it got for the credential, not the
    default. *)
Lemma exchanged_token_beats_default :
  let document_defaults := [(TOKEN, JStr "default-token")] in
  let E := fixture [token_document "fresh"; config_document document_defaults []]
             [token_response "fresh"; config_response document_defaults []] no_content in
  let caller : gmap string string :=
    {[ URI := "https://catalog"; CREDENTIAL := "id:secret" ]} in
  let built := __init__ E "prod" caller blank_world in
  built.1 = inr tt /\
  map rq_url (wire built.2)
    = ["https://catalog/v1/oauth/tokens"; "https://catalog/v1/config"] /\
  model_of E "ConfigResponse" (validate_ConfigResponse E)
    (config_response document_defaults [])
    = inr {| defaults := {[ TOKEN := "default-token" ]}; overrides := ∅ |} /\
  caller !! TOKEN = None /\
  properties (self built.2) !! TOKEN = Some "fresh".
Proof. repeat split; vm_compute; reflexivity. Qed.

(** * Further properties of the module *)

(** ** Splitting and joining *)

Lemma join_split (sep : ascii) (s : string) :
  PyStr.join (String sep EmptyString) (PyStr.split sep s) = s.
Proof.
  unfold PyStr.join. induction s as [|c rest IH]; [reflexivity|].
  simpl. destruct (Ascii.eqb_spec c sep) as [->|Hne].
  - pose proof (split_nonempty sep rest) as Hsplit.
    destruct (PyStr.split sep rest) as [|piece pieces] eqn:Hrest; [congruence|].
    change (String.concat (String sep EmptyString) ("" :: piece :: pieces))
      with (String sep (String.concat (String sep EmptyString) (piece :: pieces))).
    rewrite IH. reflexivity.
  - pose proof (split_nonempty sep rest) as Hsplit.
    destruct (PyStr.split sep rest) as [|piece pieces] eqn:Hrest; [congruence|].
    destruct pieces as [|piece' pieces].
    + simpl in *. rewrite IH. reflexivity.
    + change (String.concat (String sep EmptyString) (String c piece :: piece' :: pieces))
        with (String c (String.concat (String sep EmptyString) (piece :: piece' :: pieces))).
      rewrite IH. reflexivity.
Qed.

Lemma split_pieces (sep : ascii) (s : string) :
  Forall (fun piece => PyStr.contains sep piece = false) (PyStr.split sep s).
Proof.
  induction s as [|c rest IH]; simpl; [repeat constructor|].
  destruct (Ascii.eqb c sep) eqn:Hc.
  - constructor; [reflexivity | exact IH].
  - destruct (PyStr.split sep rest) as [|piece pieces].
    + repeat constructor. simpl. rewrite Hc. reflexivity.
    + inversion IH as [|? ? Hpiece Hpieces]; subst. constructor; [|exact Hpieces].
      simpl. rewrite Hc, Hpiece. reflexivity.
Qed.

(** X1.  Whenever the first statement of [_fetch_access_token] gets a client
    id and a secret out of a credential, neither contains a colon, and the
    credential is the secret, or the client id, a colon and the secret. *)
Theorem split_credential_joins_back (credential client_secret : string)
    (client_id : option string) :
  split_credential credential = inr (client_id, client_secret) ->
  credential = match client_id with
               | Some id => id +:+ String SEMICOLON client_secret
               | None => client_secret
               end /\
  PyStr.contains SEMICOLON client_secret = false /\
  (forall id, client_id = Some id -> PyStr.contains SEMICOLON id = false).
Proof.
  unfold split_credential.
  destruct (PyStr.contains SEMICOLON credential) eqn:Hcolon.
  - pose proof (join_split SEMICOLON credential) as Hjoin.
    pose proof (split_pieces SEMICOLON credential) as Hpieces.
    destruct (PyStr.split SEMICOLON credential) as [|a [|b [|c rest]]];
      simpl; try discriminate.
    intros [= <- <-]. rewrite <- Hjoin. clear Hjoin Hcolon.
    inversion Hpieces as [|? ? Ha Hrest]; subst.
    inversion Hrest as [|? ? Hb _]; subst.
    split; [reflexivity|]. split; [exact Hb|].
    intros id [= <-]. exact Ha.
  - intros [= <- <-]. split; [reflexivity|]. split; [exact Hcolon | discriminate].
Qed.

Lemma split_credential_joins_back_witness :
  "id:secret" = "id" +:+ String SEMICOLON "secret" /\
  PyStr.contains SEMICOLON "secret" = false /\
  (forall id, Some "id" = Some id -> PyStr.contains SEMICOLON id = false).
Proof.
  apply (split_credential_joins_back "id:secret" "secret" (Some "id")). reflexivity.
Defined.

(** ** The two encodings of an identifier *)

(** X2.  For an identifier of at least two segments both encoders succeed
    and agree: the JSON namespace followed by the JSON name is the tuple of
    the identifier, the namespace has at least one level, the namespace of
    the path is the JSON namespace joined by the separator, and the table
    of the path is the JSON name. *)
Theorem json_and_path_encodings_agree (E : Externals) (identifier : IdentifierArg) :
  (2 <= length (identifier_to_tuple E identifier))%nat ->
  exists path_parts json_parts,
    _split_identifier_for_path E (OfArg identifier) = inr path_parts /\
    _split_identifier_for_json E identifier = inr json_parts /\
    (json_namespace json_parts ++ [json_name json_parts])%list
      = identifier_to_tuple E identifier /\
    json_namespace json_parts <> [] /\
    namespace path_parts = PyStr.join NAMESPACE_SEPARATOR (json_namespace json_parts) /\
    table path_parts = json_name json_parts.
Proof.
  intros Hlen. unfold _split_identifier_for_path, _split_identifier_for_json.
  rewrite validated_tuple_ok by exact Hlen.
  do 2 eexists. repeat split; simpl.
  - symmetry. apply app_removelast_last.
    intros Hnil. rewrite Hnil in Hlen. simpl in Hlen. lia.
  - intros Hnil. pose proof (removelast_length (identifier_to_tuple E identifier)) as Hl.
    rewrite Hnil in Hl. simpl in Hl. lia.
Qed.

Lemma json_and_path_encodings_agree_witness :
  exists path_parts json_parts,
    _split_identifier_for_path (fixture [] [] no_content)
      (OfArg (IdStr "warehouse.sales.orders")) = inr path_parts /\
    _split_identifier_for_json (fixture [] [] no_content)
      (IdStr "warehouse.sales.orders") = inr json_parts /\
    (json_namespace json_parts ++ [json_name json_parts])%list
      = ["warehouse"; "sales"; "orders"] /\
    json_namespace json_parts <> [] /\
    namespace path_parts = PyStr.join NAMESPACE_SEPARATOR (json_namespace json_parts) /\
    table path_parts = json_name json_parts.
Proof.
  apply (json_and_path_encodings_agree (fixture [] [] no_content)
           (IdStr "warehouse.sales.orders")).
  simpl. lia.
Defined.

(** ** URLs *)

Lemma endswith_slash_suffix (a : string) (c : ascii) (b : string) :
  PyStr.endswith_slash (a +:+ String c b) = PyStr.endswith_slash (String c b).
Proof.
  induction a as [|x a IH]; [reflexivity|].
  change (String x a +:+ String c b) with (String x (a +:+ String c b)).
  rewrite <- IH. destruct a; reflexivity.
Qed.

Lemma endswith_slash_added (a : string) : PyStr.endswith_slash (a +:+ "/") = true.
Proof. rewrite endswith_slash_suffix. reflexivity. Qed.

(** X3.  A slash at the end of the base URI makes no difference to the
    URLs [url] builds, and neither does a slash at the end of a prefix that
    is not empty. *)
Theorem url_ignores_trailing_slash (c : RestCatalog) (endpoint : string) (prefixed : bool) :
  (PyStr.endswith_slash (uri c) = false ->
   url (with_uri (uri c +:+ "/") c) endpoint prefixed = url c endpoint prefixed) /\
  (forall p, properties c !! PREFIX = Some p -> p <> "" ->
     PyStr.endswith_slash p = false ->
     url (with_prefix (p +:+ "/") c) endpoint prefixed = url c endpoint prefixed).
Proof.
  split.
  - intros Huri. unfold url, with_uri. simpl.
    rewrite endswith_slash_added, Huri.
    replace ((uri c +:+ "/") +:+ "v1/") with (uri c +:+ "/v1/")
      by (rewrite append_assoc; reflexivity).
    reflexivity.
  - intros p Hprefix Hne Hslash. unfold url, with_prefix. simpl.
    rewrite lookup_insert_eq, Hprefix. simpl.
    destruct prefixed; [|reflexivity].
    destruct p as [|x p]; [congruence|].
    set (base := if PyStr.endswith_slash (uri c) then uri c +:+ "v1/" else uri c +:+ "/v1/").
    change (String x p +:+ "/") with (String x (p +:+ "/")).
    rewrite !endswith_slash_suffix, Hslash.
    change (String x (p +:+ "/")) with (String x p +:+ "/").
    rewrite endswith_slash_added, <- append_assoc. reflexivity.
Qed.

Lemma url_ignores_trailing_slash_witness :
  let c := {| name := "prod"; properties := {[ PREFIX := "team" ]};
              uri := "https://catalog"; _session := None |} in
  url (with_uri "https://catalog/" c) "config" false = "https://catalog/v1/config" /\
  url (with_prefix "team/" c) "namespaces" true = "https://catalog/v1/team/namespaces".
Proof.
  intros c. destruct (url_ignores_trailing_slash c "config" false) as [Huri _].
  destruct (url_ignores_trailing_slash c "namespaces" true) as [_ Hprefix]. split.
  - exact (eq_trans (Huri eq_refl) eq_refl).
  - refine (eq_trans (Hprefix "team" eq_refl _ eq_refl) eq_refl). discriminate.
Defined.

(** ** Header properties *)

Lemma strip_prefix_spec (prefix s rest : string) :
  PyStr.strip_prefix prefix s = Some rest <-> s = prefix +:+ rest.
Proof.
  revert s. induction prefix as [|p prefix IH]; intros s; simpl.
  - split; [intros [= ->]; reflexivity | intros ->; reflexivity].
  - destruct s as [|c s].
    + split; [discriminate|]. intros H. discriminate H.
    + change (String p prefix +:+ rest) with (String p (prefix +:+ rest)).
      destruct (Ascii.eqb_spec p c) as [->|Hne].
      * rewrite IH. split; [intros ->; reflexivity | intros [= ->]; reflexivity].
      * split; [discriminate|]. intros [= -> _]. congruence.
Qed.

#[local] Arguments PyStr.strip_prefix : simpl never.

Lemma stripped_headers_NoDup (l : list (string * string)) :
  NoDup l.*1 ->
  NoDup (omap (M := list)
           (fun item : string * string =>
              match PyStr.strip_prefix HEADER_PREFIX item.1 with
              | Some header => Some (header, item.2)
              | None => None
              end) l).*1.
Proof.
  induction l as [|[key value] l IH]; simpl; [constructor|].
  intros Hnodup. apply NoDup_cons in Hnodup as [Hfresh Hnodup].
  destruct (PyStr.strip_prefix HEADER_PREFIX key) as [header|] eqn:Hstrip; [|auto].
  simpl. apply NoDup_cons. split; [|auto].
  intros Hin. apply list_elem_of_fmap in Hin as [[header' value'] [Heq Hin]].
  simpl in Heq. subst header'.
  apply list_elem_of_omap in Hin as [[key' value''] [Hin Hitem]]. simpl in Hitem.
  destruct (PyStr.strip_prefix HEADER_PREFIX key') as [header'|] eqn:Hstrip';
    [|discriminate].
  injection Hitem as -> ->.
  apply strip_prefix_spec in Hstrip, Hstrip'. subst key key'.
  apply Hfresh. apply list_elem_of_fmap. exists (HEADER_PREFIX +:+ header, value').
  split; [reflexivity | exact Hin].
Qed.

Lemma extract_headers_lookup (c : RestCatalog) (header : string) :
  _extract_headers_from_properties c !! header
    = properties c !! (HEADER_PREFIX +:+ header).
Proof.
  apply option_eq. intros value. unfold _extract_headers_from_properties.
  rewrite <- elem_of_list_to_map
    by (apply stripped_headers_NoDup, NoDup_fst_map_to_list).
  rewrite list_elem_of_omap. split.
  - intros [[key value'] [Hin Hitem]]. simpl in Hitem.
    destruct (PyStr.strip_prefix HEADER_PREFIX key) as [header'|] eqn:Hstrip;
      [|discriminate].
    injection Hitem as -> ->. apply strip_prefix_spec in Hstrip. subst key.
    apply elem_of_map_to_list, Hin.
  - intros Hlookup. exists (HEADER_PREFIX +:+ header, value). split.
    + apply elem_of_map_to_list, Hlookup.
    + cbn [fst snd].
      rewrite (proj2 (strip_prefix_spec HEADER_PREFIX _ header) eq_refl).
      reflexivity.
Qed.

(** X4.  The headers taken from the properties: the value of the header
    [h] is the value of the property [header.h], and there is no header
    [h] when there is no such property. *)
Theorem extracted_header_lookup (c : RestCatalog) (header : string) :
  _extract_headers_from_properties c !! header
    = properties c !! (HEADER_PREFIX +:+ header).
Proof. apply extract_headers_lookup. Qed.

(** ** The headers of a session *)

Section SessionHeaders.

Context (E : Externals).

Lemma fetch_access_token_sessions (session : nat) (credential : string) (w w1 : World)
    (out : Outcome string) :
  _fetch_access_token E session credential w = (out, w1) -> sessions w1 = sessions w.
Proof.
  unfold _fetch_access_token, session_headers. intros H. run_step. crack H.
  all: inversion H; subst; reflexivity.
Qed.

(** After a refresh that returns, the sessions are those from before, with
    the bearer header of [session] set from the token property if that is
    not empty. *)
Lemma refresh_token_sessions (session : nat) (initial_token : option string)
    (w w1 : World) :
  _refresh_token E (Some session) initial_token w = (inr tt, w1) ->
  sessions w1 = match properties (self w1) !! TOKEN with
                | Some token => sessions (with_bearer session token w)
                | None => sessions w
                end.
Proof.
  destruct initial_token as [token|].
  - rewrite refresh_with_initial_token. intros [= <-].
    rewrite with_bearer_self. simpl. rewrite lookup_insert_eq.
    unfold with_bearer, with_token. destruct (PyStr.truthy token); reflexivity.
  - destruct (properties (self w) !! CREDENTIAL) as [credential|] eqn:Hcredential.
    + rewrite (refresh_with_credential E session credential) by exact Hcredential.
      destruct (_fetch_access_token E session credential w) as [[e|token] w2] eqn:Hfetch;
        simpl; [discriminate|].
      intros [= <-]. rewrite with_bearer_self. simpl. rewrite lookup_insert_eq.
      apply fetch_access_token_sessions in Hfetch.
      unfold with_bearer, with_token. destruct (PyStr.truthy token); simpl;
        rewrite Hfetch; reflexivity.
    + rewrite refresh_without_credential by exact Hcredential.
      destruct (properties (self w) !! TOKEN) as [token|] eqn:Htoken; intros [= <-].
      * rewrite with_bearer_self, Htoken. reflexivity.
      * rewrite Htoken. reflexivity.
Qed.

End SessionHeaders.

(** ** Header dictionaries *)

Lemma setitem_same (key value : string) (d : gmap string string) :
  CaseInsensitiveDict.setitem key value d !! key = Some value.
Proof. apply lookup_insert_eq. Qed.

(** Setting a header leaves the entries of the other names as they are. *)
Lemma setitem_other (key value header : string) (d : gmap string string) :
  PyStr.lower header <> PyStr.lower key ->
  CaseInsensitiveDict.setitem key value d !! header = d !! header.
Proof.
  intros Hne. unfold CaseInsensitiveDict.setitem, CaseInsensitiveDict.without.
  rewrite lookup_insert_ne by congruence.
  apply option_eq. intros v. rewrite map_lookup_filter_Some. simpl. tauto.
Qed.

(** Setting a header removes the other spellings of its name. *)
Lemma setitem_variant (key value header : string) (d : gmap string string) :
  PyStr.lower header = PyStr.lower key -> header <> key ->
  CaseInsensitiveDict.setitem key value d !! header = None.
Proof.
  intros Heq Hne. unfold CaseInsensitiveDict.setitem, CaseInsensitiveDict.without.
  rewrite lookup_insert_ne by congruence.
  apply map_lookup_filter_None. right. intros v _ Hkeep. apply Hkeep, Heq.
Qed.

Lemma same_name_after_setitem (header key value : string) (d : gmap string string) :
  PyStr.lower header = PyStr.lower key ->
  filter (fun item : string * string => PyStr.lower item.1 = PyStr.lower header)
         (CaseInsensitiveDict.setitem key value d)
    = {[ key := value ]}.
Proof.
  intros Heq. apply map_eq. intros spelled. apply option_eq. intros v.
  rewrite map_lookup_filter_Some, lookup_singleton_Some. simpl.
  unfold CaseInsensitiveDict.setitem, CaseInsensitiveDict.without.
  destruct (decide (spelled = key)) as [->|Hspelled].
  - rewrite lookup_insert_eq. split.
    + intros [[= ->] _]. auto.
    + intros [_ ->]. auto.
  - rewrite lookup_insert_ne by congruence. rewrite map_lookup_filter_Some. simpl.
    split.
    + intros [[_ Hother] Hsame]. congruence.
    + intros [Hkey _]. congruence.
Qed.

Lemma other_name_after_setitem (header key value : string) (d : gmap string string) :
  PyStr.lower header <> PyStr.lower key ->
  filter (fun item : string * string => PyStr.lower item.1 = PyStr.lower header)
         (CaseInsensitiveDict.setitem key value d)
    = filter (fun item : string * string => PyStr.lower item.1 = PyStr.lower header) d.
Proof.
  intros Hne. apply map_eq. intros spelled. apply option_eq. intros v.
  rewrite !map_lookup_filter_Some. simpl.
  unfold CaseInsensitiveDict.setitem, CaseInsensitiveDict.without.
  destruct (decide (spelled = key)) as [->|Hspelled].
  - rewrite lookup_insert_eq. split; intros [_ Hsame]; congruence.
  - rewrite lookup_insert_ne by congruence. rewrite map_lookup_filter_Some. simpl.
    split.
    + intros [[Hlookup _] Hsame]. auto.
    + intros [Hlookup Hsame]. repeat split; [exact Hlookup | congruence | exact Hsame].
Qed.

(** Reading a header after one was set: the value set for a header of that
    name, whatever the spelling, and the value from before for another. *)
Lemma get_setitem (header key value : string) (d : gmap string string) :
  CaseInsensitiveDict.get header (CaseInsensitiveDict.setitem key value d)
    = if decide (PyStr.lower header = PyStr.lower key) then Some value
      else CaseInsensitiveDict.get header d.
Proof.
  unfold CaseInsensitiveDict.get. case_decide.
  - rewrite same_name_after_setitem by assumption.
    rewrite map_to_list_singleton. reflexivity.
  - rewrite other_name_after_setitem by assumption. reflexivity.
Qed.

Lemma get_setitems (header : string) (items : list (string * string))
    (d : gmap string string) :
  let result :=
    foldl (fun acc (item : string * string) =>
             CaseInsensitiveDict.setitem item.1 item.2 acc) d items in
  (exists item, item ∈ items /\ PyStr.lower item.1 = PyStr.lower header /\
                CaseInsensitiveDict.get header result = Some item.2) \/
  ((forall item, item ∈ items -> PyStr.lower item.1 <> PyStr.lower header) /\
   CaseInsensitiveDict.get header result = CaseInsensitiveDict.get header d).
Proof.
  revert d. induction items as [|item items IH]; intros d; simpl.
  - right. split; [|reflexivity]. intros item Hin. inversion Hin.
  - destruct (IH (CaseInsensitiveDict.setitem item.1 item.2 d))
      as [(item' & Hin & Hsame & Hget)|[Hnone Hget]].
    + left. exists item'. split; [right; exact Hin | auto].
    + rewrite get_setitem in Hget.
      destruct (decide (PyStr.lower header = PyStr.lower item.1)) as [Hsame|Hother].
      * left. exists item. split; [left | auto].
      * right. split; [|exact Hget].
        intros item' Hin. inversion Hin; subst; [congruence | auto].
Qed.

(** Reading a header after an update: the value that the update has for a
    key of that name, or the value from before if it has no such key. *)
Lemma get_update (header : string) (other d : gmap string string) :
  (exists spelled value,
      PyStr.lower spelled = PyStr.lower header /\ other !! spelled = Some value /\
      CaseInsensitiveDict.get header (CaseInsensitiveDict.update other d) = Some value) \/
  ((forall spelled, PyStr.lower spelled = PyStr.lower header -> other !! spelled = None) /\
   CaseInsensitiveDict.get header (CaseInsensitiveDict.update other d)
     = CaseInsensitiveDict.get header d).
Proof.
  unfold CaseInsensitiveDict.update.
  destruct (get_setitems header (map_to_list other) d)
    as [([spelled value] & Hin & Hsame & Hget)|[Hnone Hget]].
  - left. exists spelled, value. apply elem_of_map_to_list in Hin. auto.
  - right. split; [|exact Hget]. intros spelled Hsame.
    destruct (other !! spelled) as [value|] eqn:Hlookup; [|reflexivity].
    exfalso. apply (Hnone (spelled, value)); [|exact Hsame].
    apply elem_of_map_to_list, Hlookup.
Qed.

#[local] Arguments CaseInsensitiveDict.setitem : simpl never.
#[local] Arguments CaseInsensitiveDict.update : simpl never.
#[local] Arguments CaseInsensitiveDict.get : simpl never.
#[local] Arguments PyStr.lower : simpl never.

(** X5.  After a refresh that returns, whether at session creation or from
    the retry hook, a token property that is not empty is the bearer token
    of the session: the session has the header [Authorization] with [Bearer]
    and the token, under that spelling and no other, so that reading the
    header under any spelling gives that value; the headers of other names
    are as before. *)
Theorem bearer_header_follows_token (E : Externals) (session : nat)
    (initial_token : option string) (w w1 : World) (before : Session) (token : string) :
  _refresh_token E (Some session) initial_token w = (inr tt, w1) ->
  sessions w !! session = Some before ->
  properties (self w1) !! TOKEN = Some token -> token <> "" ->
  exists after,
    sessions w1 !! session = Some after /\
    headers after !! AUTHORIZATION_HEADER = Some (BEARER_PREFIX +:+ " " +:+ token) /\
    (forall header,
        PyStr.lower header = PyStr.lower AUTHORIZATION_HEADER ->
        CaseInsensitiveDict.get header (headers after)
          = Some (BEARER_PREFIX +:+ " " +:+ token) /\
        (header <> AUTHORIZATION_HEADER -> headers after !! header = None)) /\
    (forall header,
        PyStr.lower header <> PyStr.lower AUTHORIZATION_HEADER ->
        headers after !! header = headers before !! header /\
        CaseInsensitiveDict.get header (headers after)
          = CaseInsensitiveDict.get header (headers before)).
Proof.
  intros Hrefresh Hbefore Htoken Hne.
  apply refresh_token_sessions in Hrefresh. rewrite Htoken in Hrefresh.
  unfold with_bearer in Hrefresh.
  destruct token as [|c token]; [congruence|]. simpl in Hrefresh.
  rewrite Hrefresh, list_lookup_alter_eq, Hbefore. simpl.
  eexists. split; [reflexivity|]. simpl. split; [|split].
  - apply setitem_same.
  - intros header Hsame. split.
    + rewrite get_setitem. case_decide; [reflexivity | contradiction].
    + intros Hspelled. apply setitem_variant; assumption.
  - intros header Hother. split.
    + apply setitem_other, Hother.
    + rewrite get_setitem. case_decide; [contradiction | reflexivity].
Qed.

Lemma bearer_header_follows_token_witness :
  let E := fixture [token_document "fresh"] [token_response "fresh"] no_content in
  exists after,
    sessions (_refresh_token E (Some 0%nat) None lowercase_world).2 !! 0%nat = Some after /\
    headers after !! AUTHORIZATION_HEADER = Some "Bearer fresh" /\
    headers after !! "authorization" = None /\
    CaseInsensitiveDict.get "authorization" (headers after) = Some "Bearer fresh" /\
    headers after !! "Accept" = Some "*/*".
Proof.
  intros E.
  destruct (bearer_header_follows_token E 0 None lowercase_world
              (_refresh_token E (Some 0%nat) None lowercase_world).2
              {| headers := {[ "authorization" := "Bearer stale"; "Accept" := "*/*" ]} |}
              "fresh" eq_refl eq_refl eq_refl)
    as (after & Hafter & Hbearer & Hsame & Hother); [discriminate|].
  exists after. split; [exact Hafter|]. split; [exact Hbearer|].
  destruct (Hsame "authorization" eq_refl) as [Hget Hspelled].
  destruct (Hother "Accept") as [Haccept _]; [discriminate|].
  split; [apply Hspelled; discriminate|]. split; [exact Hget|].
  rewrite Haccept. reflexivity.
Defined.

Lemma create_session_result (E : Externals) (w w1 : World) (session : nat) :
  _create_session E w = (inr session, w1) ->
  session = length (sessions w) /\
  exists created,
    sessions w1 !! session = Some created /\
    forall header,
      (exists spelled value,
          PyStr.lower spelled = PyStr.lower header /\
          properties (self w1) !! (HEADER_PREFIX +:+ spelled) = Some value /\
          CaseInsensitiveDict.get header (headers created) = Some value) \/
      ((forall spelled, PyStr.lower spelled = PyStr.lower header ->
          properties (self w1) !! (HEADER_PREFIX +:+ spelled) = None) /\
       CaseInsensitiveDict.get header (headers created)
         = expected_header E (properties (self w1) !! TOKEN) header).
Proof.
  unfold _create_session, new_session. run_op.
  match goal with
  | |- context [_refresh_token E (Some ?s) ?t ?w0] =>
      destruct (_refresh_token E (Some s) t w0) as [[e|[]] w2] eqn:Hrefresh
  end; [discriminate|].
  intros H. inversion H; subst. clear H. split; [reflexivity|]. simpl.
  apply refresh_token_sessions in Hrefresh. simpl in Hrefresh.
  rewrite !list_lookup_alter_eq.
  assert (Hnew : exists refreshed,
             sessions w2 !! length (sessions w) = Some refreshed /\
             forall header,
               CaseInsensitiveDict.get header (headers refreshed)
                 = match properties (self w2) !! TOKEN with
                   | Some (String c t) =>
                       if decide (PyStr.lower header = PyStr.lower AUTHORIZATION_HEADER)
                       then Some (BEARER_PREFIX +:+ " " +:+ String c t)
                       else CaseInsensitiveDict.get header (default_headers E)
                   | _ => CaseInsensitiveDict.get header (default_headers E)
                   end).
  { rewrite Hrefresh. destruct (properties (self w2) !! TOKEN) as [[|c t]|].
    - unfold with_bearer. simpl. rewrite list_lookup_middle by reflexivity. eauto.
    - unfold with_bearer. simpl.
      rewrite list_lookup_alter_eq, list_lookup_middle by reflexivity. simpl.
      eexists. split; [reflexivity|]. intros header. simpl.
      apply get_setitem.
    - rewrite list_lookup_middle by reflexivity. eauto. }
  destruct Hnew as (refreshed & -> & Hrefreshed). simpl.
  eexists. split; [reflexivity|]. intros header. simpl.
  match goal with
  | |- context [CaseInsensitiveDict.update ?other ?d] =>
      destruct (get_update header other d)
        as [(spelled & value & Hsame & Hlookup & Hget)|[Hnone Hget]]
  end.
  - left. exists spelled, value. rewrite extract_headers_lookup in Hlookup. auto.
  - right. split.
    + intros spelled Hsame. rewrite <- extract_headers_lookup. apply Hnone, Hsame.
    + rewrite Hget, !get_setitem, Hrefreshed. unfold expected_header.
      repeat (case_decide; [reflexivity|]).
      destruct (properties (self w2) !! TOKEN) as [[|c t]|]; reflexivity.
Qed.

(** X6.  A session that [_create_session] returns is a new one.  Reading a
    header of it, under any spelling, gives the value of a property
    [header.h] whose [h] is that name in some spelling, also when it is one
    of the built-in headers or [Authorization]; when no property names the
    header, it gives the built-in value, the bearer token, or the default of
    a new session. *)
Theorem created_session_headers (E : Externals) (w w1 : World) (session : nat) :
  _create_session E w = (inr session, w1) ->
  session = length (sessions w) /\
  exists created,
    sessions w1 !! session = Some created /\
    forall header,
      (exists spelled value,
          PyStr.lower spelled = PyStr.lower header /\
          properties (self w1) !! (HEADER_PREFIX +:+ spelled) = Some value /\
          CaseInsensitiveDict.get header (headers created) = Some value) \/
      ((forall spelled, PyStr.lower spelled = PyStr.lower header ->
          properties (self w1) !! (HEADER_PREFIX +:+ spelled) = None) /\
       CaseInsensitiveDict.get header (headers created)
         = expected_header E (properties (self w1) !! TOKEN) header).
Proof. apply create_session_result. Qed.

Lemma created_session_headers_witness :
  let E := fixture [] [] no_content in
  let w := bootstrap_world {[ TOKEN := "abc"; HEADER_PREFIX +:+ "content-type" := "text/plain" ]} in
  exists created,
    sessions (_create_session E w).2 !! 0%nat = Some created /\
    CaseInsensitiveDict.get "Content-type" (headers created) = Some "text/plain" /\
    CaseInsensitiveDict.get "x-client-version" (headers created) = Some "0.14.1" /\
    CaseInsensitiveDict.get AUTHORIZATION_HEADER (headers created) = Some "Bearer abc".
Proof.
  intros E w.
  destruct (created_session_headers E w (_create_session E w).2 0 eq_refl)
    as (_ & created & Hcreated & Hheaders).
  exists created. split; [exact Hcreated|].
  assert (Hnamed : forall spelled value,
            properties (self (_create_session E w).2) !! (HEADER_PREFIX +:+ spelled)
              = Some value ->
            spelled = "content-type" /\ value = "text/plain").
  { intros spelled value Hlookup. apply elem_of_map_to_list in Hlookup.
    vm_compute in Hlookup.
    repeat match goal with
           | H : list_elem_of _ _ |- _ => inversion H; clear H; subst
           | H : _ ∈ _ |- _ => inversion H; clear H; subst
           end; auto. }
  repeat split.
  - destruct (Hheaders "Content-type")
      as [(spelled & value & _ & Hlookup & ->)|[Hnone _]].
    + apply Hnamed in Hlookup as [_ ->]. reflexivity.
    + specialize (Hnone "content-type" eq_refl). discriminate Hnone.
  - destruct (Hheaders "x-client-version")
      as [(spelled & value & Hsame & Hlookup & _)|[_ ->]]; [|reflexivity].
    apply Hnamed in Hlookup as [-> _]. discriminate Hsame.
  - destruct (Hheaders AUTHORIZATION_HEADER)
      as [(spelled & value & Hsame & Hlookup & _)|[_ ->]]; [|reflexivity].
    apply Hnamed in Hlookup as [-> _]. discriminate Hsame.
Defined.

(** ** What an operation sends and what it changes *)

Lemma sends_at_most_refl (n : nat) (w : World) : sends_at_most n w w.
Proof. exists []. rewrite app_nil_r. split; [reflexivity | simpl; lia]. Qed.

Lemma sends_at_most_trans (n m : nat) (w w1 w2 : World) :
  sends_at_most n w w1 -> sends_at_most m w1 w2 -> sends_at_most (n + m) w w2.
Proof.
  intros [more [Hw Hn]] [more' [Hw' Hm]]. exists (more ++ more')%list.
  rewrite Hw', Hw, <- app_assoc, length_app. split; [reflexivity | lia].
Qed.

Lemma sends_at_most_weaken (n m : nat) (w w1 : World) :
  (n <= m)%nat -> sends_at_most n w w1 -> sends_at_most m w w1.
Proof. intros Hle [more [Hw Hn]]. exists more. split; [exact Hw | lia]. Qed.

Lemma same_catalog_but_token_refl (w : World) : same_catalog_but_token w w.
Proof. repeat split. Qed.

Lemma same_catalog_but_token_trans (w w1 w2 : World) :
  same_catalog_but_token w w1 -> same_catalog_but_token w1 w2 ->
  same_catalog_but_token w w2.
Proof.
  intros (Hn & Hu & Hs & Hp) (Hn' & Hu' & Hs' & Hp').
  repeat split; try congruence.
  intros key Hkey. rewrite Hp', Hp by exact Hkey. reflexivity.
Qed.

Lemma same_self_same_catalog (w w1 : World) :
  self w1 = self w -> same_catalog_but_token w w1.
Proof. intros H. unfold same_catalog_but_token. rewrite H. repeat split. Qed.

Ltac solve_plain :=
  unfold plain; simpl; repeat split;
  first [ apply sends_at_most_refl
        | eexists; split; [reflexivity | simpl; lia] ].

Ltac plain_effect H := run_step; crack H; (inversion H; subst; solve_plain).

#[local] Arguments PyStr.join : simpl never.
#[local] Arguments String.concat : simpl never.

Section Effects.

Context (E : Externals) (N : NamespaceExternals).

Lemma fetch_access_token_plain (session : nat) (credential : string) :
  keeps plain (_fetch_access_token E session credential).
Proof.
  intros w out w1 H. unfold _fetch_access_token, session_headers in H. plain_effect H.
Qed.

Lemma def_create_table_plain (identifier : IdentifierArg) (args : CreateTableArgs) :
  keeps plain (def_create_table E identifier args).
Proof. intros w out w1 H. unfold def_create_table in H. plain_effect H. Qed.

Lemma def_register_table_plain (identifier : IdentifierArg) (location : string) :
  keeps plain (def_register_table E identifier location).
Proof. intros w out w1 H. unfold def_register_table in H. plain_effect H. Qed.

Lemma def_list_tables_plain (namespace : IdentifierArg) :
  keeps plain (def_list_tables E namespace).
Proof. intros w out w1 H. unfold def_list_tables in H. plain_effect H. Qed.

Lemma def_load_table_plain (identifier : IdentifierArg) :
  keeps plain (def_load_table E identifier).
Proof. intros w out w1 H. unfold def_load_table in H. plain_effect H. Qed.

Lemma def_drop_table_plain (identifier : IdentifierArg) (purge_requested : bool) :
  keeps plain (def_drop_table E identifier purge_requested).
Proof. intros w out w1 H. unfold def_drop_table in H. plain_effect H. Qed.

Lemma def_commit_table_plain (table_request : CommitTableRequest) :
  keeps plain (def__commit_table E table_request).
Proof. intros w out w1 H. unfold def__commit_table in H. plain_effect H. Qed.

Lemma def_create_namespace_plain (namespace : IdentifierArg)
    (namespace_properties : gmap string string) :
  keeps plain (def_create_namespace E namespace namespace_properties).
Proof. intros w out w1 H. unfold def_create_namespace in H. plain_effect H. Qed.

Lemma def_drop_namespace_plain (namespace : IdentifierArg) :
  keeps plain (def_drop_namespace E namespace).
Proof. intros w out w1 H. unfold def_drop_namespace in H. plain_effect H. Qed.

Lemma def_list_namespaces_plain (namespace : IdentifierArg) :
  keeps plain (def_list_namespaces E N namespace).
Proof. intros w out w1 H. unfold def_list_namespaces in H. plain_effect H. Qed.

Lemma def_load_namespace_properties_plain (namespace : IdentifierArg) :
  keeps plain (def_load_namespace_properties E N namespace).
Proof. intros w out w1 H. unfold def_load_namespace_properties in H. plain_effect H. Qed.

Lemma def_update_namespace_properties_plain (namespace : IdentifierArg)
    (removals : option (gset string)) (updates : gmap string string) :
  keeps plain (def_update_namespace_properties E N namespace removals updates).
Proof.
  intros w out w1 H. unfold def_update_namespace_properties in H. plain_effect H.
Qed.

End Effects.

Section Decorated.

Context (E : Externals) (N : NamespaceExternals).

Lemma retry_hook_same_catalog : keeps same_catalog_but_token (_retry_hook E).
Proof.
  intros w out w1 H.
  destruct (_session (self w)) as [session|] eqn:Hsession.
  - rewrite (retry_hook_session E session) in H by exact Hsession.
    apply refresh_token_self in H as (Hname & Huri & Hs & Hprops).
    repeat split; try assumption.
    intros key Hkey. destruct Hprops as [->|(token & -> & _)]; [reflexivity|].
    apply lookup_insert_ne. congruence.
  - unfold _retry_hook, _refresh_token in H. run_step. rewrite Hsession in H.
    inversion H; subst. apply same_catalog_but_token_refl.
Qed.

Lemma retry_hook_sends : keeps (sends_at_most 1) (_retry_hook E).
Proof.
  intros w out w1 H.
  destruct (_session (self w)) as [session|] eqn:Hsession.
  - rewrite (retry_hook_session E session) in H by exact Hsession.
    destruct (properties (self w) !! CREDENTIAL) as [credential|] eqn:Hcredential.
    + rewrite (refresh_with_credential E session credential) in H by exact Hcredential.
      destruct (_fetch_access_token E session credential w) as [[e|token] w2] eqn:Hfetch;
        apply fetch_access_token_plain in Hfetch as (_ & _ & Hsent);
        simpl in H; inversion H; subst; [exact Hsent|].
      destruct Hsent as [more [Hwire Hlen]]. exists more.
      rewrite with_bearer_wire. simpl. auto.
    + rewrite refresh_without_credential in H by exact Hcredential.
      destruct (properties (self w) !! TOKEN); inversion H; subst.
      * exists []. rewrite with_bearer_wire, app_nil_r. split; [reflexivity | simpl; lia].
      * apply sends_at_most_refl.
  - unfold _retry_hook, _refresh_token in H. run_step. rewrite Hsession in H.
    inversion H; subst. apply sends_at_most_refl.
Qed.

(** What the function and the hook keep, the decorated method keeps. *)
Lemma retry_keeps {A} (R : World -> World -> Prop) (fn : M A) :
  (forall w w1 w2, R w w1 -> R w1 w2 -> R w w2) ->
  keeps R (_retry_hook E) -> keeps R fn -> keeps R (retry E fn).
Proof.
  intros Htrans Hhook Hfn w out w1. rewrite retry_unfold.
  destruct (fn w) as [[e|result] w2] eqn:Hfirst; apply Hfn in Hfirst;
    [|intros [= <- <-]; exact Hfirst].
  destruct (bool_decide _); [|intros [= <- <-]; exact Hfirst].
  destruct (_retry_hook E w2) as [[e'|[]] w3] eqn:Hrefresh; apply Hhook in Hrefresh.
  - intros [= <- <-]. exact (Htrans _ _ _ Hfirst Hrefresh).
  - intros Hsecond. apply Hfn in Hsecond.
    exact (Htrans _ _ _ (Htrans _ _ _ Hfirst Hrefresh) Hsecond).
Qed.

Lemma retry_sends {A} (n : nat) (fn : M A) :
  keeps (sends_at_most n) fn -> keeps (sends_at_most (n + 1 + n)) (retry E fn).
Proof.
  intros Hfn w out w1. rewrite retry_unfold.
  destruct (fn w) as [[e|result] w2] eqn:Hfirst;
    [|intros [= <- <-]; eapply sends_at_most_weaken; [|eauto]; lia].
  destruct (bool_decide _);
    [|intros [= <- <-]; eapply sends_at_most_weaken; [|eauto]; lia].
  apply Hfn in Hfirst.
  destruct (_retry_hook E w2) as [[e'|[]] w3] eqn:Hrefresh;
    apply retry_hook_sends in Hrefresh.
  - intros [= <- <-]. eapply sends_at_most_weaken;
      [|eapply sends_at_most_trans; eassumption]. lia.
  - intros Hsecond. apply Hfn in Hsecond.
    eapply sends_at_most_trans; [eapply sends_at_most_trans|]; eassumption.
Qed.

Lemma plain_same_catalog {A} (fn : M A) :
  keeps plain fn -> keeps same_catalog_but_token fn.
Proof. intros H w out w1 Hrun. apply same_self_same_catalog, (H w out w1 Hrun). Qed.

Lemma plain_sends {A} (fn : M A) : keeps plain fn -> keeps (sends_at_most 1) fn.
Proof. intros H w out w1 Hrun. apply (H w out w1 Hrun). Qed.

Lemma decorated_same_catalog {A} (fn : M A) :
  keeps plain fn -> keeps same_catalog_but_token (retry E fn).
Proof.
  intros H. apply retry_keeps;
    [apply same_catalog_but_token_trans | apply retry_hook_same_catalog
    | apply plain_same_catalog, H].
Qed.

Lemma decorated_sends {A} (fn : M A) :
  keeps plain fn -> keeps (sends_at_most 3) (retry E fn).
Proof. intros H. apply (retry_sends 1), plain_sends, H. Qed.

Lemma def_rename_table_same_catalog (from_identifier to_identifier : IdentifierArg) :
  keeps same_catalog_but_token (def_rename_table E from_identifier to_identifier).
Proof.
  intros w out w1 H. unfold def_rename_table in H. run_step. crack H.
  all: try (inversion H; subst; apply same_self_same_catalog; reflexivity).
  apply (decorated_same_catalog _ (def_load_table_plain E to_identifier)) in H.
  exact H.
Qed.

Lemma def_rename_table_sends (from_identifier to_identifier : IdentifierArg) :
  keeps (sends_at_most 4) (def_rename_table E from_identifier to_identifier).
Proof.
  intros w out w1 H. unfold def_rename_table in H. run_step. crack H.
  all: try (inversion H; subst;
            first [ apply sends_at_most_refl
                  | eexists; split; [reflexivity | simpl; lia] ]).
  apply (decorated_sends _ (def_load_table_plain E to_identifier)) in H.
  eapply (sends_at_most_trans 1 3); [|exact H].
  eexists. split; [reflexivity | simpl; lia].
Qed.

End Decorated.

Lemma operations_keep_the_catalog_url (w w1 : World) :
  same_catalog_but_token w w1 ->
  forall endpoint prefixed,
    url (self w1) endpoint prefixed = url (self w) endpoint prefixed.
Proof.
  intros (_ & Huri & _ & Hprops) endpoint prefixed.
  unfold url. rewrite Huri, (Hprops PREFIX) by discriminate. reflexivity.
Qed.

(** X7.  No operation changes the name of the catalog, its base URI, its
    session or any property other than the token, whatever the service
    answers and however often the token is refreshed; so the URLs the
    catalog builds stay the same. *)
Theorem operations_keep_the_catalog (E : Externals) (N : NamespaceExternals) :
  (forall identifier args,
     keeps same_catalog_but_token (create_table E identifier args)) /\
  (forall identifier location,
     keeps same_catalog_but_token (register_table E identifier location)) /\
  (forall namespace, keeps same_catalog_but_token (list_tables E namespace)) /\
  (forall identifier, keeps same_catalog_but_token (load_table E identifier)) /\
  (forall identifier purge,
     keeps same_catalog_but_token (drop_table E identifier purge)) /\
  (forall identifier, keeps same_catalog_but_token (purge_table E identifier)) /\
  (forall from_identifier to_identifier,
     keeps same_catalog_but_token (rename_table E from_identifier to_identifier)) /\
  (forall table_request, keeps same_catalog_but_token (_commit_table E table_request)) /\
  (forall namespace namespace_properties,
     keeps same_catalog_but_token (create_namespace E namespace namespace_properties)) /\
  (forall namespace, keeps same_catalog_but_token (drop_namespace E namespace)) /\
  (forall namespace, keeps same_catalog_but_token (list_namespaces E N namespace)) /\
  (forall namespace,
     keeps same_catalog_but_token (load_namespace_properties E N namespace)) /\
  (forall namespace removals updates,
     keeps same_catalog_but_token
       (update_namespace_properties E N namespace removals updates)) /\
  (forall w w1, same_catalog_but_token w w1 ->
     forall endpoint prefixed,
       url (self w1) endpoint prefixed = url (self w) endpoint prefixed).
Proof.
  assert (Hdrop : forall identifier purge,
             keeps same_catalog_but_token (drop_table E identifier purge))
    by (intros; apply decorated_same_catalog, def_drop_table_plain).
  repeat apply conj; intros.
  - apply decorated_same_catalog, def_create_table_plain.
  - apply decorated_same_catalog, def_register_table_plain.
  - apply decorated_same_catalog, def_list_tables_plain.
  - apply decorated_same_catalog, def_load_table_plain.
  - apply Hdrop.
  - apply retry_keeps;
      [apply same_catalog_but_token_trans | apply retry_hook_same_catalog | apply Hdrop].
  - apply retry_keeps;
      [apply same_catalog_but_token_trans | apply retry_hook_same_catalog
      | apply def_rename_table_same_catalog].
  - apply decorated_same_catalog, def_commit_table_plain.
  - apply decorated_same_catalog, def_create_namespace_plain.
  - apply decorated_same_catalog, def_drop_namespace_plain.
  - apply decorated_same_catalog, def_list_namespaces_plain.
  - apply decorated_same_catalog, def_load_namespace_properties_plain.
  - apply decorated_same_catalog, def_update_namespace_properties_plain.
  - match goal with H : same_catalog_but_token _ _ |- _ =>
      destruct H as (_ & Huri & _ & Hprops) end.
    unfold url. rewrite Huri, (Hprops PREFIX) by discriminate. reflexivity.
Qed.

Lemma operations_keep_the_catalog_witness :
  let after := (purge_table expiring orders credential_world).2 in
  same_catalog_but_token credential_world after /\
  properties (self credential_world) !! TOKEN = None /\
  properties (self after) !! TOKEN = Some "short-lived".
Proof.
  intros after. split; [|split; reflexivity].
  destruct (operations_keep_the_catalog expiring namespace_fixture)
    as (_ & _ & _ & _ & _ & Hpurge & _).
  apply (Hpurge orders credential_world
           (purge_table expiring orders credential_world).1 after).
  apply surjective_pairing.
Defined.

(** X8.  An operation that does not call another decorated operation sends
    at most three requests: its own, the exchange of the credential by the
    retry hook, and its own again.  [purge_table] sends at most seven and
    [rename_table] at most nine, because they are decorated and call
    [drop_table] and [load_table], which are decorated too. *)
Theorem operations_send_at_most (E : Externals) (N : NamespaceExternals) :
  (forall identifier args, keeps (sends_at_most 3) (create_table E identifier args)) /\
  (forall identifier location,
     keeps (sends_at_most 3) (register_table E identifier location)) /\
  (forall namespace, keeps (sends_at_most 3) (list_tables E namespace)) /\
  (forall identifier, keeps (sends_at_most 3) (load_table E identifier)) /\
  (forall identifier purge, keeps (sends_at_most 3) (drop_table E identifier purge)) /\
  (forall table_request, keeps (sends_at_most 3) (_commit_table E table_request)) /\
  (forall namespace namespace_properties,
     keeps (sends_at_most 3) (create_namespace E namespace namespace_properties)) /\
  (forall namespace, keeps (sends_at_most 3) (drop_namespace E namespace)) /\
  (forall namespace, keeps (sends_at_most 3) (list_namespaces E N namespace)) /\
  (forall namespace, keeps (sends_at_most 3) (load_namespace_properties E N namespace)) /\
  (forall namespace removals updates,
     keeps (sends_at_most 3)
       (update_namespace_properties E N namespace removals updates)) /\
  (forall identifier, keeps (sends_at_most 7) (purge_table E identifier)) /\
  (forall from_identifier to_identifier,
     keeps (sends_at_most 9) (rename_table E from_identifier to_identifier)).
Proof.
  repeat apply conj; intros.
  - apply decorated_sends, def_create_table_plain.
  - apply decorated_sends, def_register_table_plain.
  - apply decorated_sends, def_list_tables_plain.
  - apply decorated_sends, def_load_table_plain.
  - apply decorated_sends, def_drop_table_plain.
  - apply decorated_sends, def_commit_table_plain.
  - apply decorated_sends, def_create_namespace_plain.
  - apply decorated_sends, def_drop_namespace_plain.
  - apply decorated_sends, def_list_namespaces_plain.
  - apply decorated_sends, def_load_namespace_properties_plain.
  - apply decorated_sends, def_update_namespace_properties_plain.
  - apply (retry_sends E 3). unfold def_purge_table.
    apply decorated_sends, def_drop_table_plain.
  - apply (retry_sends E 4), def_rename_table_sends.
Qed.

Lemma operations_send_at_most_witness :
  let purged := purge_table expiring orders credential_world in
  sends_at_most 7 credential_world purged.2 /\
  purged.1 = inr tt /\
  map rq_method (wire purged.2) = [DELETE; POST; DELETE; POST; DELETE; POST; DELETE].
Proof.
  intros purged. split; [|split; reflexivity].
  destruct (operations_send_at_most expiring namespace_fixture)
    as (_ & _ & _ & _ & _ & _ & _ & _ & _ & _ & _ & Hpurge & _).
  apply (Hpurge orders credential_world purged.1 purged.2). apply surjective_pairing.
Defined.

(** ** Namespaces *)

Ltac answered_by Hrun Hwire Hstatus :=
  run_step; crack Hrun;
  (inversion Hrun; subst; simpl in Hwire; by_wire; congruence).

Section NamespaceAnswers.

Context (E : Externals) (N : NamespaceExternals).

Lemma create_namespace_answered (namespace : IdentifierArg)
    (namespace_properties : gmap string string) (w w' : World)
    (out : Outcome unit) (r : Response) :
  def_create_namespace E namespace namespace_properties w = (out, w') ->
  answered E w w' r ->
  forall exc, raise_for_status r = Some exc ->
  out = inl (_handle_non_200_response E exc
               {[ 404 := NoSuchNamespaceError; 409 := NamespaceAlreadyExistsError ]}).
Proof.
  intros Hrun [rq [Hwire Hr]] exc Hstatus. unfold def_create_namespace in Hrun.
  answered_by Hrun Hwire Hstatus.
Qed.

Lemma drop_namespace_answered (namespace : IdentifierArg) (w w' : World)
    (out : Outcome unit) (r : Response) :
  def_drop_namespace E namespace w = (out, w') -> answered E w w' r ->
  forall exc, raise_for_status r = Some exc ->
  out = inl (_handle_non_200_response E exc {[ 404 := NoSuchNamespaceError ]}).
Proof.
  intros Hrun [rq [Hwire Hr]] exc Hstatus. unfold def_drop_namespace in Hrun.
  answered_by Hrun Hwire Hstatus.
Qed.

Lemma list_namespaces_answered (namespace : IdentifierArg) (w w' : World)
    (out : Outcome (list (list string))) (r : Response) :
  def_list_namespaces E N namespace w = (out, w') -> answered E w w' r ->
  forall exc, raise_for_status r = Some exc ->
  out = inl (_handle_non_200_response E exc ∅).
Proof.
  intros Hrun [rq [Hwire Hr]] exc Hstatus. unfold def_list_namespaces in Hrun.
  answered_by Hrun Hwire Hstatus.
Qed.

Lemma load_namespace_properties_answered (namespace : IdentifierArg) (w w' : World)
    (out : Outcome (gmap string string)) (r : Response) :
  def_load_namespace_properties E N namespace w = (out, w') -> answered E w w' r ->
  forall exc, raise_for_status r = Some exc ->
  out = inl (_handle_non_200_response E exc {[ 404 := NoSuchNamespaceError ]}).
Proof.
  intros Hrun [rq [Hwire Hr]] exc Hstatus. unfold def_load_namespace_properties in Hrun.
  answered_by Hrun Hwire Hstatus.
Qed.

Lemma update_namespace_properties_answered (namespace : IdentifierArg)
    (removals : option (gset string)) (updates : gmap string string) (w w' : World)
    (out : Outcome PropertiesUpdateSummary) (r : Response) :
  def_update_namespace_properties E N namespace removals updates w = (out, w') ->
  answered E w w' r ->
  forall exc, raise_for_status r = Some exc ->
  out = inl (_handle_non_200_response E exc {[ 404 := NoSuchNamespaceError ]}).
Proof.
  intros Hrun [rq [Hwire Hr]] exc Hstatus.
  unfold def_update_namespace_properties in Hrun.
  answered_by Hrun Hwire Hstatus.
Qed.

Lemma drop_table_answered (identifier : IdentifierArg) (purge_requested : bool)
    (w w' : World) (out : Outcome unit) (r : Response) :
  def_drop_table E identifier purge_requested w = (out, w') -> answered E w w' r ->
  forall exc, raise_for_status r = Some exc ->
  out = inl (_handle_non_200_response E exc {[ 404 := NoSuchTableError ]}).
Proof.
  intros Hrun [rq [Hwire Hr]] exc Hstatus. unfold def_drop_table in Hrun.
  answered_by Hrun Hwire Hstatus.
Qed.

Lemma register_table_answered (identifier : IdentifierArg) (location : string)
    (w w' : World) (out : Outcome Table) (r : Response) :
  def_register_table E identifier location w = (out, w') -> answered E w w' r ->
  forall exc, raise_for_status r = Some exc ->
  out = inl (_handle_non_200_response E exc {[ 409 := TableAlreadyExistsError ]}).
Proof.
  intros Hrun [rq [Hwire Hr]] exc Hstatus. unfold def_register_table in Hrun.
  answered_by Hrun Hwire Hstatus.
Qed.

End NamespaceAnswers.

Lemma rename_table_answered (E : Externals) (from_identifier to_identifier : IdentifierArg)
    (w w' : World) (out : Outcome Table) (r : Response) :
  def_rename_table E from_identifier to_identifier w = (out, w') -> answered E w w' r ->
  forall exc, raise_for_status r = Some exc ->
  out = inl (_handle_non_200_response E exc
               {[ 404 := NoSuchTableError; 409 := TableAlreadyExistsError ]}).
Proof.
  intros Hrun [rq [Hwire Hr]] exc Hstatus. unfold def_rename_table in Hrun.
  run_step. crack Hrun.
  all: try (inversion Hrun; subst; simpl in Hwire; by_wire; congruence).
  apply (decorated_sends E _ (def_load_table_plain E to_identifier)) in Hrun.
  destruct Hrun as [more [Hmore _]]. simpl in Hmore.
  rewrite Hmore, <- app_assoc in Hwire. apply app_inv_head in Hwire.
  inversion Hwire; subst. congruence.
Qed.

(** X9.  An identifier without segments is refused by every operation on a
    namespace and by [list_tables]: [NoSuchNamespaceError] is raised, no
    request is sent and nothing changes. *)
Theorem empty_namespace_is_refused (E : Externals) (N : NamespaceExternals)
    (namespace : IdentifierArg) (w : World) :
  identifier_to_tuple E namespace = [] ->
  let e := Raise NoSuchNamespaceError
             ("Empty namespace identifier: " +:+ str_of_identifier E namespace) in
  refused (list_tables E namespace w) e w /\
  (forall namespace_properties,
     refused (create_namespace E namespace namespace_properties w) e w) /\
  refused (drop_namespace E namespace w) e w /\
  refused (load_namespace_properties E N namespace w) e w /\
  (forall removals updates,
     refused (update_namespace_properties E N namespace removals updates w) e w).
Proof.
  intros Hempty e.
  assert (Hcheck : _check_valid_namespace_identifier E namespace = inl e)
    by (unfold _check_valid_namespace_identifier; rewrite Hempty; reflexivity).
  unfold refused. repeat apply conj; intros;
    (apply retry_other_error; [|discriminate]).
  - unfold def_list_tables. run_step. rewrite Hcheck. reflexivity.
  - unfold def_create_namespace. run_step. rewrite Hcheck. reflexivity.
  - unfold def_drop_namespace. run_step. rewrite Hcheck. reflexivity.
  - unfold def_load_namespace_properties. run_step. rewrite Hcheck. reflexivity.
  - unfold def_update_namespace_properties. run_step. rewrite Hcheck. reflexivity.
Qed.

Lemma empty_namespace_is_refused_witness :
  let E := fixture [] [] no_content in
  refused (drop_namespace E (IdTuple []) (catalog_world "prod" ∅ ∅))
    (Raise NoSuchNamespaceError "Empty namespace identifier: ()")
    (catalog_world "prod" ∅ ∅).
Proof.
  intros E.
  destruct (empty_namespace_is_refused E namespace_fixture (IdTuple [])
              (catalog_world "prod" ∅ ∅) eq_refl) as (_ & _ & Hdrop & _).
  exact Hdrop.
Defined.

(** X10.  The statuses of the namespace operations, for a body that is a
    JSON object or no JSON at all: a 404 makes [create_namespace],
    [drop_namespace], [load_namespace_properties] and
    [update_namespace_properties] raise [NoSuchNamespaceError], a 409 makes
    [create_namespace] raise [NamespaceAlreadyExistsError]; [list_namespaces]
    has no handler of its own, a 404 for a parent that does not exist makes
    it raise the general [RESTError]. *)
Theorem namespace_status_to_error_kind (E : Externals) (N : NamespaceExternals)
    (r : Response) :
  undecodable_or_object E r ->
  (forall namespace namespace_properties, status_code r = 404 ->
     status_raises E (def_create_namespace E namespace namespace_properties)
       (create_namespace E namespace namespace_properties) r NoSuchNamespaceError) /\
  (forall namespace namespace_properties, status_code r = 409 ->
     status_raises E (def_create_namespace E namespace namespace_properties)
       (create_namespace E namespace namespace_properties) r
       NamespaceAlreadyExistsError) /\
  (forall namespace, status_code r = 404 ->
     status_raises E (def_drop_namespace E namespace) (drop_namespace E namespace)
       r NoSuchNamespaceError) /\
  (forall namespace, status_code r = 404 ->
     status_raises E (def_load_namespace_properties E N namespace)
       (load_namespace_properties E N namespace) r NoSuchNamespaceError) /\
  (forall namespace removals updates, status_code r = 404 ->
     status_raises E (def_update_namespace_properties E N namespace removals updates)
       (update_namespace_properties E N namespace removals updates)
       r NoSuchNamespaceError) /\
  (forall namespace, status_code r = 404 ->
     status_raises E (def_list_namespaces E N namespace) (list_namespaces E N namespace)
       r RESTError).
Proof.
  intros Hbody. repeat apply conj; intros; match goal with Hs : status_code r = _ |- _ =>
    eapply mapped;
      eauto using create_namespace_answered, drop_namespace_answered,
        load_namespace_properties_answered, update_namespace_properties_answered,
        list_namespaces_answered;
      try lia; try discriminate; rewrite Hs; reflexivity end.
Qed.

Lemma namespace_status_to_error_kind_witness :
  let E := fixture [] [not_found] no_content in
  raises (list_namespaces E namespace_fixture (IdTuple ["sales"])
            (catalog_world "prod" ∅ ∅)).1 RESTError.
Proof.
  intros E.
  destruct (namespace_status_to_error_kind E namespace_fixture not_found I)
    as (_ & _ & _ & _ & _ & Hlist).
  destruct (Hlist (IdTuple ["sales"]) eq_refl (catalog_world "prod" ∅ ∅) _ _
              (surjective_pairing _)) as [Hraises Hrun].
  - eexists. split; reflexivity.
  - rewrite Hrun. exact Hraises.
Defined.

(** X11.  The statuses of the remaining table operations, for a body that
    is a JSON object or no JSON at all: a 404 makes [drop_table] raise
    [NoSuchTableError], a 409 makes [register_table] raise
    [TableAlreadyExistsError], and the rename request of [rename_table]
    raises [NoSuchTableError] on a 404 and [TableAlreadyExistsError] on a
    409, without loading the destination. *)
Theorem table_status_to_error_kind (E : Externals) (r : Response) :
  undecodable_or_object E r ->
  (forall identifier purge, status_code r = 404 ->
     status_raises E (def_drop_table E identifier purge) (drop_table E identifier purge)
       r NoSuchTableError) /\
  (forall identifier location, status_code r = 409 ->
     status_raises E (def_register_table E identifier location)
       (register_table E identifier location) r TableAlreadyExistsError) /\
  (forall from_identifier to_identifier, status_code r = 404 ->
     status_raises E (def_rename_table E from_identifier to_identifier)
       (rename_table E from_identifier to_identifier) r NoSuchTableError) /\
  (forall from_identifier to_identifier, status_code r = 409 ->
     status_raises E (def_rename_table E from_identifier to_identifier)
       (rename_table E from_identifier to_identifier) r TableAlreadyExistsError).
Proof.
  intros Hbody. repeat apply conj; intros; match goal with Hs : status_code r = _ |- _ =>
    eapply mapped;
      eauto using drop_table_answered, register_table_answered, rename_table_answered;
      try lia; try discriminate; rewrite Hs; reflexivity end.
Qed.

Lemma table_status_to_error_kind_witness :
  let E := fixture [] [ {| status_code := 409; text := "exists" |} ] no_content in
  let renamed := rename_table E orders (IdTuple ["sales"; "orders_v2"])
                   (catalog_world "prod" ∅ ∅) in
  raises renamed.1 TableAlreadyExistsError /\ length (wire renamed.2) = 1%nat.
Proof.
  intros E renamed. split; [|reflexivity].
  destruct (table_status_to_error_kind E {| status_code := 409; text := "exists" |} I)
    as (_ & _ & _ & Hrename).
  destruct (Hrename orders (IdTuple ["sales"; "orders_v2"]) eq_refl
              (catalog_world "prod" ∅ ∅) _ _ (surjective_pairing _))
    as [Hraises Hrun].
  - eexists. split; reflexivity.
  - unfold renamed. rewrite Hrun. exact Hraises.
Defined.

Lemma retry_returned_keeps (E : Externals) {A} (R : World -> World -> Prop) (fn : M A) :
  (forall w, R w w) -> (forall w w1 w2, R w w1 -> R w1 w2 -> R w w2) ->
  keeps R (_retry_hook E) -> keeps R fn ->
  forall w result w',
    retry E fn w = (inr result, w') ->
    exists w1, R w w1 /\ fn w1 = (inr result, w').
Proof.
  intros Hrefl Htrans Hhook Hfn w result w'. rewrite retry_unfold.
  destruct (fn w) as [[e|result'] w2] eqn:Hfirst.
  - destruct (bool_decide _); [|discriminate].
    destruct (_retry_hook E w2) as [[e'|[]] w3] eqn:Hrefresh; [discriminate|].
    intros Hsecond. exists w3. split; [|exact Hsecond].
    exact (Htrans _ _ _ (Hfn _ _ _ Hfirst) (Hhook _ _ _ Hrefresh)).
  - intros [= <- <-]. exists w. split; [apply Hrefl | exact Hfirst].
Qed.

Lemma map_app_nil (children : list (list string)) :
  map (fun child : list string => ([] ++ child)%list) children = children.
Proof. exact (List.map_id children). Qed.

(** X12.  What [list_namespaces] returns is made of the answer to its last
    request, a GET: each namespace of the answer with the tuple of the
    parent put in front.  For the root the answer is returned as it is and
    the request goes to [namespaces]; for a parent, the endpoint with the
    joined parent is passed through [format] before it is used. *)
Theorem list_namespaces_prefixes_parent (E : Externals) (N : NamespaceExternals)
    (namespace : IdentifierArg) (w w' : World) (result : list (list string)) :
  list_namespaces E N namespace w = (inr result, w') ->
  let parent := identifier_to_tuple E namespace in
  exists children earlier rq,
    wire w' = (earlier ++ [rq])%list /\ rq_method rq = GET /\
    model_of E "ListNamespaceResponse" (validate_ListNamespaceResponse N)
      (server E earlier rq) = inr children /\
    result = map (fun child => (parent ++ child)%list) children /\
    (parent = [] ->
     result = children /\ rq_url rq = url (self w) Endpoints.list_namespaces true) /\
    (parent <> [] ->
     exists endpoint,
       format_without_arguments N
         (Endpoints.list_namespaces +:+ "?parent=" +:+ PyStr.join NAMESPACE_SEPARATOR parent)
         = inr endpoint /\
       rq_url rq = url (self w) endpoint true).
Proof.
  intros Hrun parent. subst parent. unfold list_namespaces in Hrun.
  apply (retry_returned_keeps E same_catalog_but_token) in Hrun as (w1 & Hsame & Hdef);
    [|apply same_catalog_but_token_refl | apply same_catalog_but_token_trans
     |apply retry_hook_same_catalog
     |apply plain_same_catalog, def_list_namespaces_plain].
  pose proof (operations_keep_the_catalog_url w w1 Hsame) as Hurl.
  unfold def_list_namespaces in Hdef. run_step.
  destruct (_session (self w1)) as [session|]; [|discriminate].
  destruct (identifier_to_tuple E namespace) as [|segment parent] eqn:Hparent.
  - simpl in Hdef.
    match type of Hdef with context [server E (wire w1) ?q] => set (rq := q) in * end.
    destruct (raise_for_status (server E (wire w1) rq)); [discriminate|]. simpl in Hdef.
    destruct (model_of E "ListNamespaceResponse" (validate_ListNamespaceResponse N)
                (server E (wire w1) rq)) as [e|children] eqn:Hmodel; [discriminate|].
    inversion Hdef; subst. exists children, (wire w1), rq.
    split; [reflexivity|]. split; [reflexivity|]. split; [exact Hmodel|].
    split; [reflexivity|]. split.
    + intros _. split; [apply map_app_nil | simpl; apply Hurl].
    + congruence.
  - simpl in Hdef.
    destruct (format_without_arguments N _) as [e|endpoint] eqn:Hformat; [discriminate|].
    simpl in Hdef.
    match type of Hdef with context [server E (wire w1) ?q] => set (rq := q) in * end.
    destruct (raise_for_status (server E (wire w1) rq)); [discriminate|]. simpl in Hdef.
    destruct (model_of E "ListNamespaceResponse" (validate_ListNamespaceResponse N)
                (server E (wire w1) rq)) as [e|children] eqn:Hmodel; [discriminate|].
    inversion Hdef; subst. exists children, (wire w1), rq.
    split; [reflexivity|]. split; [reflexivity|]. split; [exact Hmodel|].
    split; [reflexivity|]. split.
    + discriminate.
    + intros _. exists endpoint. split; [reflexivity|]. simpl. apply Hurl.
Qed.

Lemma list_namespaces_prefixes_parent_witness :
  let E := fixture [regions_document] [regions_response] no_content in
  let listed := list_namespaces E namespace_fixture (IdTuple ["sales"])
                  (catalog_world "prod" ∅ ∅) in
  listed.1 = inr [ ["sales"; "eu"]; ["sales"; "us"] ] /\
  exists children,
    [ ["sales"; "eu"]; ["sales"; "us"] ]
      = map (fun child => (["sales"] ++ child)%list) children.
Proof.
  intros E listed. split; [reflexivity|].
  destruct (list_namespaces_prefixes_parent E namespace_fixture (IdTuple ["sales"])
              (catalog_world "prod" ∅ ∅) listed.2 [ ["sales"; "eu"]; ["sales"; "us"] ]
              eq_refl) as (children & _ & _ & _ & _ & _ & Hresult & _).
  exists children. exact Hresult.
Defined.

(** ** Answers that are no errors *)

Lemma raise_for_status_ok (r : Response) :
  status_code r < 400 \/ 600 <= status_code r -> raise_for_status r = None.
Proof.
  intros Hstatus. unfold raise_for_status.
  destruct (Z.leb_spec 400 (status_code r)); [|reflexivity].
  destruct (Z.ltb_spec (status_code r) 600); [lia | reflexivity].
Qed.

Ltac returned_by Hrun Hwire Hok :=
  run_step; crack Hrun;
  (inversion Hrun; subst; simpl in Hwire; by_wire; congruence).

Section Returns.

Context (E : Externals) (r : Response).
Hypothesis ok : status_code r < 400 \/ 600 <= status_code r.

Lemma returns_unit (def_op : M unit) :
  (forall w out w', def_op w = (out, w') -> answered E w w' r ->
     raise_for_status r = None -> out = inr tt) ->
  answer_returns E def_op (retry E def_op) r tt.
Proof.
  intros Hanswered w out w' Hrun Hr.
  pose proof (Hanswered w out w' Hrun Hr (raise_for_status_ok r ok)) as ->.
  split; [reflexivity|]. apply retry_returns, Hrun.
Qed.

Lemma drop_table_returns (identifier : IdentifierArg) (purge_requested : bool)
    (w w' : World) (out : Outcome unit) :
  def_drop_table E identifier purge_requested w = (out, w') -> answered E w w' r ->
  raise_for_status r = None -> out = inr tt.
Proof.
  intros Hrun [rq [Hwire Hr]] Hok. unfold def_drop_table in Hrun.
  returned_by Hrun Hwire Hok.
Qed.

Lemma drop_namespace_returns (namespace : IdentifierArg) (w w' : World)
    (out : Outcome unit) :
  def_drop_namespace E namespace w = (out, w') -> answered E w w' r ->
  raise_for_status r = None -> out = inr tt.
Proof.
  intros Hrun [rq [Hwire Hr]] Hok. unfold def_drop_namespace in Hrun.
  returned_by Hrun Hwire Hok.
Qed.

Lemma create_namespace_returns (namespace : IdentifierArg)
    (namespace_properties : gmap string string) (w w' : World) (out : Outcome unit) :
  def_create_namespace E namespace namespace_properties w = (out, w') ->
  answered E w w' r ->
  raise_for_status r = None -> out = inr tt.
Proof.
  intros Hrun [rq [Hwire Hr]] Hok. unfold def_create_namespace in Hrun.
  returned_by Hrun Hwire Hok.
Qed.

End Returns.

(** X13.  [drop_table], [drop_namespace] and [create_namespace] do not read
    the body of the answer: whenever the status of the answer to their
    request is below 400 or not below 600, they return [None]. *)
Theorem deletes_ignore_the_body (E : Externals) (r : Response) :
  status_code r < 400 \/ 600 <= status_code r ->
  (forall identifier purge,
     answer_returns E (def_drop_table E identifier purge)
       (drop_table E identifier purge) r tt) /\
  (forall namespace,
     answer_returns E (def_drop_namespace E namespace) (drop_namespace E namespace) r tt) /\
  (forall namespace namespace_properties,
     answer_returns E (def_create_namespace E namespace namespace_properties)
       (create_namespace E namespace namespace_properties) r tt).
Proof.
  intros Hok. repeat apply conj; intros; apply returns_unit;
    eauto using drop_table_returns, drop_namespace_returns, create_namespace_returns.
Qed.

Lemma deletes_ignore_the_body_witness :
  let r := {| status_code := 302; text := "<html>moved</html>" |} in
  let E := fixture [] [r] no_content in
  (drop_namespace E (IdTuple ["sales"]) (catalog_world "prod" ∅ ∅)).1 = inr tt.
Proof.
  intros r E.
  destruct (deletes_ignore_the_body E r) as (_ & Hdrop & _); [left; reflexivity|].
  destruct (Hdrop (IdTuple ["sales"]) (catalog_world "prod" ∅ ∅) _ _
              (surjective_pairing _)) as [Hout Hrun].
  - eexists. split; reflexivity.
  - rewrite Hrun. exact Hout.
Defined.

Lemma model_of_kinds (E : Externals) {A} (callee : string)
    (validate : list (string * json) -> Validated A) (r : Response) (e : PyException) :
  model_of E callee validate r = inl e ->
  exc_kind e = JSONDecodeError \/ exc_kind e = TypeError \/ exc_kind e = ValidationError.
Proof.
  unfold model_of, kwargs.
  destruct (json_loads E (text r)) as [[| | | | |members]|];
    try (intros [= <-]; simpl; auto).
  destruct (validate members); [discriminate|]. intros [= <-]. simpl. auto.
Qed.

Lemma load_table_parses (E : Externals) (identifier : IdentifierArg) (w w' : World)
    (out : Outcome Table) (r : Response) :
  def_load_table E identifier w = (out, w') -> answered E w w' r ->
  raise_for_status r = None ->
  match model_of E "TableResponse" (validate_TableResponse E) r with
  | inl e => out = inl e
  | inr parsed =>
      exists handle,
        out = inr handle /\
        table_metadata_location handle = metadata_location parsed /\
        table_metadata handle = metadata parsed /\
        io_location (io handle) = metadata_location parsed /\
        io_properties (io handle)
          = dict_update (metadata_properties E (metadata parsed)) (config parsed)
  end.
Proof.
  intros Hrun [rq [Hwire Hr]] Hok. unfold def_load_table in Hrun. run_step.
  destruct (_session (self w)); [|inversion Hrun; subst; by_wire].
  destruct (_split_identifier_for_path E _) as [e|parts];
    [inversion Hrun; subst; by_wire|].
  match type of Hrun with context [server E (wire w) ?q] => set (rq' := q) in * end.
  destruct (raise_for_status (server E (wire w) rq')) as [exc'|] eqn:Hstatus'.
  - inversion Hrun; subst. simpl in Hwire. by_wire. congruence.
  - simpl in Hrun.
    destruct (model_of E "TableResponse" (validate_TableResponse E) (server E (wire w) rq'))
      as [e|parsed] eqn:Hmodel; inversion Hrun; subst; simpl in Hwire; by_wire;
      rewrite Hmodel; [reflexivity|].
    eexists. repeat split.
Qed.

(** X14.  An answer to [load_table] whose status is below 400 or not below
    600 is read as a table, whatever the status: a body that is no JSON
    raises [JSONDecodeError], JSON that is no object [TypeError], an object
    that is no table response [ValidationError], and these are not retried;
    a table response gives the handle, whose file IO gets the properties of
    the metadata overridden by the [config] of the response. *)
Theorem load_table_reads_any_other_answer (E : Externals) (identifier : IdentifierArg)
    (w w' : World) (out : Outcome Table) (r : Response) :
  def_load_table E identifier w = (out, w') -> answered E w w' r ->
  status_code r < 400 \/ 600 <= status_code r ->
  load_table E identifier w = (out, w') /\
  (json_loads E (text r) = None -> raises out JSONDecodeError) /\
  (forall value, json_loads E (text r) = Some value ->
     (forall members, value <> JObj members) -> raises out TypeError) /\
  (forall members errs, json_loads E (text r) = Some (JObj members) ->
     validate_TableResponse E members = Invalid errs -> raises out ValidationError) /\
  (forall members parsed, json_loads E (text r) = Some (JObj members) ->
     validate_TableResponse E members = Valid parsed ->
     exists handle,
       out = inr handle /\
       table_metadata_location handle = metadata_location parsed /\
       forall key,
         io_properties (io handle) !! key
           = match config parsed !! key with
             | Some value => Some value
             | None => metadata_properties E (metadata parsed) !! key
             end).
Proof.
  intros Hrun Hr Hstatus.
  pose proof (load_table_parses E identifier w w' out r Hrun Hr
                (raise_for_status_ok r Hstatus)) as Hparse.
  split.
  - unfold load_table.
    destruct (model_of E "TableResponse" (validate_TableResponse E) r) as [e|parsed]
      eqn:Hmodel.
    + subst out. apply retry_other_error; [exact Hrun|].
      apply model_of_kinds in Hmodel. destruct Hmodel as [H|[H|H]]; rewrite H; discriminate.
    + destruct Hparse as (handle & -> & _). apply retry_returns, Hrun.
  - unfold model_of, kwargs in Hparse. repeat apply conj.
    + intros Hjson. rewrite Hjson in Hparse. subst out. eexists. reflexivity.
    + intros value Hjson Hvalue. rewrite Hjson in Hparse.
      destruct value; try (subst out; eexists; reflexivity).
      exfalso. eapply Hvalue. reflexivity.
    + intros members errs Hjson Hinvalid. rewrite Hjson, Hinvalid in Hparse.
      subst out. eexists. reflexivity.
    + intros members parsed Hjson Hvalid. rewrite Hjson, Hvalid in Hparse.
      destruct Hparse as (handle & -> & Hlocation & _ & _ & Hio).
      exists handle. split; [reflexivity|]. split; [exact Hlocation|].
      intros key. rewrite Hio. unfold dict_update.
      destruct (config parsed !! key) as [value|] eqn:Hconfig.
      * apply lookup_union_Some_l, Hconfig.
      * apply lookup_union_r, Hconfig.
Qed.

Lemma load_table_reads_any_other_answer_witness :
  let r := {| status_code := 304; text := "" |} in
  let E := fixture [] [r] no_content in
  raises (load_table E orders (catalog_world "prod" ∅ ∅)).1 JSONDecodeError.
Proof.
  intros r E.
  destruct (load_table_reads_any_other_answer E orders (catalog_world "prod" ∅ ∅)
              (def_load_table E orders (catalog_world "prod" ∅ ∅)).2
              (def_load_table E orders (catalog_world "prod" ∅ ∅)).1 r)
    as (Hrun & Hnojson & _).
  - apply surjective_pairing.
  - eexists. split; reflexivity.
  - left. reflexivity.
  - rewrite Hrun. apply Hnojson. reflexivity.
Defined.

(** ** Other failures of the token endpoint *)

Lemma default_class_not_oauth (code : Z) : exception_class ∅ code <> OAuthError.
Proof.
  unfold exception_class. rewrite lookup_empty.
  repeat (case_decide; [discriminate|]).
  destruct ((500 <=? code) && (code <? 600)); discriminate.
Qed.

Lemma token_handler_other_status (code : Z) :
  code <> 400 -> code <> 401 ->
  exception_class {[ 400 := OAuthError; 401 := OAuthError ]} code = exception_class ∅ code.
Proof.
  intros H400 H401. unfold exception_class.
  rewrite lookup_insert_ne, lookup_singleton_ne, lookup_empty by congruence.
  reflexivity.
Qed.

(** X15.  An error status of the token endpoint other than 400 and 401 is
    handled like that of any other request: the class is the default one
    for the status, and the body is read as the general error shape, so an
    OAuth error document sent with such a status only appears as raw text
    in the message about an unexpected payload. *)
Theorem token_endpoint_other_statuses (E : Externals) (session : nat)
    (credential : string) (w w' : World) (out : Outcome string) (r : Response) :
  _fetch_access_token E session credential w = (out, w') ->
  answered E w w' r ->
  400 <= status_code r < 600 -> status_code r <> 400 -> status_code r <> 401 ->
  forall members, json_loads E (text r) = Some (JObj members) ->
    (forall parsed, validate_ErrorResponse E members = Valid parsed ->
       out = inl (Raise (exception_class ∅ (status_code r))
                    (type parsed +:+ ": " +:+ message parsed))) /\
    (forall errs, validate_ErrorResponse E members = Invalid errs ->
       out = inl (Raise (exception_class ∅ (status_code r))
                    ("RESTError " +:+ pretty (status_code r)
                       +:+ ": Received unexpected JSON Payload: " +:+ text r
                       +:+ ", errors: " +:+ PyStr.join ", " errs))).
Proof.
  intros Hrun Hr Hrange H400 H401 members Hjson.
  pose proof (fetch_access_token_answered E session credential w w' out r Hrun Hr _
                (raise_for_status_error r Hrange)) as ->.
  unfold _handle_non_200_response. simpl.
  rewrite Hjson, token_handler_other_status by assumption.
  destruct (decide (exception_class ∅ (status_code r) = OAuthError)) as [Hoauth|_];
    [exfalso; exact (default_class_not_oauth _ Hoauth)|].
  simpl. split.
  - intros parsed ->. reflexivity.
  - intros errs ->. reflexivity.
Qed.

Lemma token_endpoint_other_statuses_witness :
  let r := {| status_code := 403; text := Fixture.dumps invalid_client |} in
  let E := fixture [invalid_client] [r] no_content in
  raises (_fetch_access_token E 0 "id:secret" (catalog_world "prod" ∅ ∅)).1 ForbiddenError.
Proof.
  intros r E.
  destruct (token_endpoint_other_statuses E 0 "id:secret" (catalog_world "prod" ∅ ∅)
              (_fetch_access_token E 0 "id:secret" (catalog_world "prod" ∅ ∅)).2
              (_fetch_access_token E 0 "id:secret" (catalog_world "prod" ∅ ∅)).1 r)
    with (members := [ ("error", JStr "invalid_client");
                       ("error_description", JStr "Credentials given were invalid");
                       ("error_uri", JStr "https://catalog/errors") ])
    as [_ Hinvalid].
  - apply surjective_pairing.
  - eexists. split; reflexivity.
  - simpl. lia.
  - discriminate.
  - discriminate.
  - reflexivity.
  - rewrite (Hinvalid Fixture.required eq_refl). eexists. reflexivity.
Defined.

(** ** The decorator *)

(** X16.  A decorated method runs its function once.  What the function
    returns is returned, and an exception of another class than
    [AuthorizationExpiredError] leaves at once, in both cases without a
    refresh.  On [AuthorizationExpiredError] the retry hook runs: if it
    raises, that exception leaves and the function is not run again; if it
    returns, the function runs once more and its outcome is final. *)
Theorem decorated_method_outcomes (E : Externals) {A} (fn : M A) (w : World) :
  (forall result w1, fn w = (inr result, w1) -> retry E fn w = (inr result, w1)) /\
  (forall e w1, fn w = (inl e, w1) -> exc_kind e <> AuthorizationExpiredError ->
     retry E fn w = (inl e, w1)) /\
  (forall e w1 e' w2,
     fn w = (inl e, w1) -> exc_kind e = AuthorizationExpiredError ->
     _retry_hook E w1 = (inl e', w2) -> retry E fn w = (inl e', w2)) /\
  (forall e w1 w2,
     fn w = (inl e, w1) -> exc_kind e = AuthorizationExpiredError ->
     _retry_hook E w1 = (inr tt, w2) -> retry E fn w = fn w2).
Proof.
  repeat apply conj; intros.
  - apply retry_returns. assumption.
  - apply retry_other_error; assumption.
  - eapply retry_refresh_fails; eassumption.
  - eapply retry_second_attempt; eassumption.
Qed.

Lemma decorated_method_outcomes_witness :
  let E := fixture [table_document] [expired; table_response] no_content in
  let w := catalog_world "prod" ∅ ∅ in
  let loaded := load_table E orders w in
  (exists handle, loaded.1 = inr handle) /\ length (wire loaded.2) = 2%nat /\
  loaded = def_load_table E orders (def_load_table E orders w).2.
Proof.
  intros E w loaded. split; [eexists; reflexivity|]. split; [reflexivity|].
  destruct (decorated_method_outcomes E (def_load_table E orders) w)
    as (_ & _ & _ & Hsecond).
  apply (Hsecond (Raise AuthorizationExpiredError
                    "RESTError 419: Could not decode json payload: expired")
           (def_load_table E orders w).2); reflexivity.
Defined.

(** ** Construction *)

#[local] Arguments _fetch_config : simpl never.

Lemma fetch_config_result (E : Externals) (w w' : World) :
  _fetch_config E w = (inr tt, w') ->
  name (self w') = name (self w) /\
  properties (self w') !! URI = Some (uri (self w')).
Proof.
  unfold _fetch_config, set_properties, set_uri. run_op.
  destruct (_create_session E w) as [[e|session] w1] eqn:Hsession; [discriminate|].
  apply create_session_properties in Hsession as (Hname & _ & _).
  match goal with
  | |- context [server E (wire w1) ?q] => set (rq := q)
  end.
  destruct (raise_for_status (server E (wire w1) rq)); [discriminate|]. simpl.
  destruct (model_of E "ConfigResponse" (validate_ConfigResponse E)
              (server E (wire w1) rq)) as [e|document]; [discriminate|].
  simpl.
  destruct (dict_update (dict_update (defaults document) (properties (self w1)))
              (overrides document) !! URI) as [u|] eqn:Huri; [|discriminate].
  simpl. intros [= <-]. simpl. split; [exact Hname | exact Huri].
Qed.

Lemma create_session_keeps_uri_property (E : Externals) (w w1 : World) (session : nat) :
  _create_session E w = (inr session, w1) ->
  properties (self w1) !! URI = properties (self w) !! URI.
Proof.
  intros H. apply create_session_properties in H as (_ & _ & Hprops). simpl in Hprops.
  destruct (properties (self w) !! TOKEN);
    [|destruct (properties (self w) !! CREDENTIAL)]; try (rewrite Hprops; reflexivity).
  destruct Hprops as (token & _ & _ & _ & _ & ->).
  apply lookup_insert_ne. discriminate.
Qed.

(** X17.  Constructing a catalog without a [uri] property raises [KeyError]
    before anything is sent.  When the construction returns, the catalog
    has the name it was given, a session of its own, and a base URI that is
    the [uri] of its properties, which may be the one the service put into
    the configuration. *)
Theorem constructed_catalog (E : Externals) (catalog_name : string)
    (caller : gmap string string) (w : World) :
  (caller !! URI = None ->
   raises (__init__ E catalog_name caller w).1 KeyError /\
   wire (__init__ E catalog_name caller w).2 = wire w) /\
  (forall w', __init__ E catalog_name caller w = (inr tt, w') ->
     is_Some (caller !! URI) /\
     name (self w') = catalog_name /\
     properties (self w') !! URI = Some (uri (self w')) /\
     exists session created,
       _session (self w') = Some session /\ sessions w' !! session = Some created).
Proof.
  split.
  - intros Hmissing. unfold __init__. rewrite Hmissing. simpl.
    split; [eexists; reflexivity | reflexivity].
  - intros w'. unfold __init__.
    destruct (caller !! URI) as [u|]; [|discriminate].
    unfold set_uri, set_session. run_op.
    match goal with
    | |- context [_fetch_config E ?w0] =>
        destruct (_fetch_config E w0) as [[e|[]] w1] eqn:Hconfig
    end; [discriminate|].
    apply fetch_config_result in Hconfig as [Hname Huri]. simpl in Hname.
    destruct (_create_session E w1) as [[e|session] w2] eqn:Hsession; [discriminate|].
    intros [= <-]. simpl.
    pose proof (create_session_keeps_uri_property E _ _ _ Hsession) as Hkept.
    pose proof (create_session_result E _ _ _ Hsession) as (_ & created & Hcreated & _).
    apply create_session_properties in Hsession as (Hname' & Huri' & _).
    split; [eauto|]. split; [congruence|]. split; [congruence|].
    exists session, created. split; [reflexivity | exact Hcreated].
Qed.

Lemma constructed_catalog_witness :
  let E := fixture [config_document [] [(URI, JStr "https://eu.catalog")]]
             [config_response [] [(URI, JStr "https://eu.catalog")]] no_content in
  let built := __init__ E "prod" {[ URI := "https://catalog" ]} blank_world in
  built.1 = inr tt /\
  name (self built.2) = "prod" /\
  properties (self built.2) !! URI = Some (uri (self built.2)) /\
  uri (self built.2) = "https://eu.catalog".
Proof.
  intros E built.
  assert (Hrun : __init__ E "prod" {[ URI := "https://catalog" ]} blank_world
                 = (inr tt, built.2)) by (vm_compute; reflexivity).
  destruct (constructed_catalog E "prod" {[ URI := "https://catalog" ]} blank_world)
    as [_ Hbuilt].
  destruct (Hbuilt built.2 Hrun) as (_ & Hname & Huri & _).
  split; [vm_compute; reflexivity|]. split; [exact Hname|]. split; [exact Huri|].
  vm_compute. reflexivity.
Defined.

(** ** The requests that are sent *)



(** X19.  What [list_tables] returns is made of the answer to its last
    request, a GET for the tables of the namespace joined by the
    separator: for each entry of the answer its namespace followed by its
    name, without the name of the catalog. *)
Theorem list_tables_identifiers (E : Externals) (namespace : IdentifierArg)
    (w w' : World) (result : list (list string)) :
  list_tables E namespace w = (inr result, w') ->
  exists entries earlier rq,
    wire w' = (earlier ++ [rq])%list /\ rq_method rq = GET /\
    rq_url rq
      = url (self w)
          (Endpoints.list_tables
             (PyStr.join NAMESPACE_SEPARATOR (identifier_to_tuple E namespace))) true /\
    identifier_to_tuple E namespace <> [] /\
    model_of E "ListTablesResponse" (validate_ListTablesResponse E) (server E earlier rq)
      = inr entries /\
    result = map (fun entry => (entry_namespace entry ++ [entry_name entry])%list) entries.
Proof.
  intros Hrun. unfold list_tables in Hrun.
  apply (retry_returned_keeps E same_catalog_but_token) in Hrun as (w1 & Hsame & Hdef);
    [|apply same_catalog_but_token_refl | apply same_catalog_but_token_trans
     |apply retry_hook_same_catalog
     |apply plain_same_catalog, def_list_tables_plain].
  pose proof (operations_keep_the_catalog_url w w1 Hsame) as Hurl.
  unfold def_list_tables, _check_valid_namespace_identifier in Hdef. run_step.
  destruct (identifier_to_tuple E namespace) as [|segment parent] eqn:Hparent;
    [discriminate|].
  simpl in Hdef.
  destruct (_session (self w1)) as [session|]; [|discriminate].
  match type of Hdef with context [server E (wire w1) ?q] => set (rq := q) in * end.
  destruct (raise_for_status (server E (wire w1) rq)); [discriminate|]. simpl in Hdef.
  destruct (model_of E "ListTablesResponse" (validate_ListTablesResponse E)
              (server E (wire w1) rq)) as [e|entries] eqn:Hmodel; [discriminate|].
  inversion Hdef; subst. exists entries, (wire w1), rq.
  split; [reflexivity|]. split; [reflexivity|]. split; [simpl; apply Hurl|].
  split; [discriminate|]. split; [exact Hmodel | reflexivity].
Qed.

Lemma list_tables_identifiers_witness :
  let E := fixture [tables_document] [tables_response] no_content in
  let listed := list_tables E (IdStr "sales") (catalog_world "prod" ∅ ∅) in
  listed.1 = inr [ ["sales"; "orders"] ] /\
  exists earlier rq,
    wire listed.2 = (earlier ++ [rq])%list /\
    rq_url rq = "https://catalog/v1/namespaces/sales/tables".
Proof.
  intros E listed. split; [reflexivity|].
  destruct (list_tables_identifiers E (IdStr "sales") (catalog_world "prod" ∅ ∅)
              listed.2 [ ["sales"; "orders"] ] eq_refl)
    as (entries & earlier & rq & Hwire & _ & Hurl & _).
  exists earlier, rq. split; [exact Hwire | exact Hurl].
Defined.
